(** * GreenShoes admin panel: session handling and response normalization

    A shallow embedding of the API client ([src/services/api.js]), the
    admin authentication context ([src/context/AdminAuthContext.jsx]) and
    the route guard ([src/components/ProtectedRoute.jsx]), followed by the
    properties established about them. *)

From Stdlib Require Import ZArith String Ascii List.
From stdpp Require Import base option list strings gmap pretty.

Local Open Scope string_scope.
Local Open Scope list_scope.

(** ** JavaScript values as the code sees them *)

Module Js.

(** The data handled by the client is what [JSON.parse] produces, plus
    [undefined], which appears when a missing property is read.  Numbers are
    never computed on by the code under study, only passed around and
    compared, so integers stand for them. *)
#[warnings="-register-all"]
Inductive jsval : Type :=
| JUndefined
| JNull
| JBool (b : bool)
| JNum (n : Z)
| JStr (s : string)
| JArr (xs : list jsval)
| JObj (fields : list (string * jsval)).

(** An HTTP response as axios hands it over: [response.status] and
    [response.data]. *)
Record httpResponse : Type := HttpResponse {
  status : Z;
  data : jsval
}.

(** What a [catch] block can receive: a [TypeError] raised by the language
    (a property read on [null]/[undefined], a call of something that is not
    a function), or the error object with which axios rejects, whose
    [response] is missing when no response arrived. *)
Inductive exn : Type :=
| TypeError
| AxiosError (response : option httpResponse).

(** Evaluation that may throw. *)
Inductive result (A : Type) : Type :=
| Ok (a : A)
| Throw (e : exn).
Arguments Ok {A} a.
Arguments Throw {A} e.

#[export] Instance result_ret : MRet result := λ A a, Ok a.
#[export] Instance result_bind : MBind result := λ A B f r,
  match r with
  | Ok a => f a
  | Throw e => Throw e
  end.
#[export] Instance result_fmap : FMap result := λ A B f r,
  match r with
  | Ok a => Ok (f a)
  | Throw e => Throw e
  end.

(** [!!v], the condition of [if (v)], [v || w] and [v ? a : b]. *)
Definition truthy (v : jsval) : bool :=
  match v with
  | JUndefined | JNull => false
  | JBool b => b
  | JNum n => negb (n =? 0)%Z
  | JStr s => negb (String.eqb s "")
  | JArr _ | JObj _ => true
  end.

(** [typeof v === 'string'] *)
Definition isString (v : jsval) : bool :=
  match v with
  | JStr _ => true
  | _ => false
  end.

(** [v || w] *)
Definition orElse (v w : jsval) : jsval := if truthy v then v else w.

(** Own properties of an object literal, in property order. *)
Fixpoint ownProp (k : string) (fs : list (string * jsval)) : option jsval :=
  match fs with
  | [] => None
  | (k', v) :: fs' => if String.eqb k k' then Some v else ownProp k fs'
  end.

(** Defining property [k] on an object under construction: an existing
    property keeps its place and takes the new value, a new one goes last. *)
Fixpoint setProp (k : string) (v : jsval) (fs : list (string * jsval))
  : list (string * jsval) :=
  match fs with
  | [] => [(k, v)]
  | (k', v') :: fs' =>
      if String.eqb k k' then (k, v) :: fs' else (k', v') :: setProp k v fs'
  end.

(** [v?.k] for a data property [k].  The names read by the code
    ([products], [main_image], [colors], [sizes], [value], [token], [user],
    [role], [error], [data]) are defined on no built-in prototype, so on an
    array, a string, a number or a boolean the read gives [undefined]. *)
Definition getOpt (v : jsval) (k : string) : jsval :=
  match v with
  | JObj fs => default JUndefined (ownProp k fs)
  | _ => JUndefined
  end.

(** [v.k]: as [v?.k], except that reading from [null] or [undefined]
    throws. *)
Definition getProp (v : jsval) (k : string) : result jsval :=
  match v with
  | JUndefined | JNull => Throw TypeError
  | _ => Ok (getOpt v k)
  end.

(** Truth value of [v?.map]: arrays inherit [Array.prototype.map]; an object
    has it only as an own property named [map]; nothing else has one. *)
Definition hasMap (v : jsval) : bool :=
  match v with
  | JArr _ => true
  | JObj fs => truthy (default JUndefined (ownProp "map" fs))
  | _ => false
  end.

(** [v.map(f)] once [v?.map] was found truthy: the array method on an array,
    and a [TypeError] otherwise, since parsed data holds no function. *)
Definition callMap (f : jsval → result jsval) (v : jsval) : result jsval :=
  match v with
  | JArr xs => JArr <$> mapM f xs
  | _ => Throw TypeError
  end.

(** The entries copied by an object spread [{...v}]. *)
Definition indexed (xs : list jsval) : list (string * jsval) :=
  imap (λ i x, (pretty i, x)) xs.

Definition chars (s : string) : list jsval :=
  (λ c, JStr (String c EmptyString)) <$> list_ascii_of_string s.

Definition ownEntries (v : jsval) : list (string * jsval) :=
  match v with
  | JObj fs => fs
  | JArr xs => indexed xs
  | JStr s => indexed (chars s)
  | _ => []
  end.

End Js.

Import Js.

(** ** The browser around the client *)

Module Browser.

(** What the code does to the browser, in the order it does it. *)
Inductive effect : Type :=
| SetItem (key value : string)
| RemoveItem (key : string)
| SetHref (url : string).

(** [localStorage], [window.location.href] and the journal of effects.
    [localStorage.setItem] is taken to succeed (no quota failure). *)
Record world : Type := World {
  storage : gmap string string;
  href : string;
  journal : list effect
}.

(** [localStorage.getItem(key)]: [null] ([None]) for a missing key. *)
Definition getItem (key : string) (w : world) : option string :=
  storage w !! key.

(** [localStorage.setItem(key, value)] *)
Definition setItem (key value : string) (w : world) : world :=
  World (<[key := value]> (storage w)) (href w)
        (journal w ++ [SetItem key value]).

(** [localStorage.removeItem(key)] *)
Definition removeItem (key : string) (w : world) : world :=
  World (delete key (storage w)) (href w) (journal w ++ [RemoveItem key]).

(** [window.location.href = url] *)
Definition assignHref (url : string) (w : world) : world :=
  World (storage w) url (journal w ++ [SetHref url]).

(** Truth value of what [getItem] returned: [null] and the empty string are
    falsy. *)
Definition itemTruthy (item : option string) : bool :=
  match item with
  | Some s => negb (String.eqb s "")
  | None => false
  end.

End Browser.

Import Browser.

(** ** The API client, [src/services/api.js] *)

Module Api.

Definition TOKEN_KEY : string := "admin_token".
Definition USER_KEY : string := "admin_user".

(** The part of an axios request configuration the client touches. *)
Record requestConfig : Type := RequestConfig {
  method : string;
  url : string;
  headers : gmap string string;
  body : jsval
}.

(** [config.headers.Authorization = value] *)
Definition setAuthorization (value : string) (config : requestConfig)
  : requestConfig :=
  RequestConfig (method config) (url config)
                (<["Authorization" := value]> (headers config)) (body config).

(** The request interceptor. *)
Definition requestInterceptor (w : world) (config : requestConfig)
  : requestConfig :=
  let token := getItem TOKEN_KEY w in
  if itemTruthy token
  then setAuthorization ("Bearer " +:+ default "" token) config
  else config.

(** [error.response?.status] *)
Definition errorStatus (error : exn) : option Z :=
  match error with
  | AxiosError (Some response) => Some (status response)
  | _ => None
  end.

(** The rejection handler of the response interceptor; the promise it
    returns is rejected with the same [error]. *)
Definition onRejected (error : exn) (w : world) : world :=
  if decide (errorStatus error = Some 401%Z)
  then assignHref "/login" (removeItem USER_KEY (removeItem TOKEN_KEY w))
  else w.

(** The response interceptor on a settled request: a fulfilled one passes
    through, a rejected one goes through [onRejected] and stays rejected. *)
Definition responseInterceptor (settled : result httpResponse) (w : world)
  : result httpResponse * world :=
  match settled with
  | Ok response => (Ok response, w)
  | Throw error => (Throw error, onRejected error w)
  end.

(** The rejection handler run once for each rejected request of a batch. *)
Definition onRejectedAll (errors : list exn) (w : world) : world :=
  foldl (λ w' error, onRejected error w') w errors.

(** How axios settles a request: no response is a rejection without
    [response]; a response is a fulfilment when its status is 2xx (the
    default [validateStatus]) and a rejection carrying it otherwise. *)
Definition settle (reply : option httpResponse) : result httpResponse :=
  match reply with
  | None => Throw (AxiosError None)
  | Some response =>
      if (200 <=? status response)%Z && (status response <? 300)%Z
      then Ok response
      else Throw (AxiosError (Some response))
  end.

(** One request through [adminAxios]: request interceptor, the server's
    reply, response interceptor. *)
Definition adminAxios (server : requestConfig → option httpResponse)
    (config : requestConfig) (w : world) : result httpResponse * world :=
  responseInterceptor (settle (server (requestInterceptor w config))) w.

(** [adminAPI.login(credentials)] *)
Definition adminAPI_login (server : requestConfig → option httpResponse)
    (credentials : jsval) (w : world) : result httpResponse * world :=
  adminAxios server (RequestConfig "post" "/auth/login" ∅ credentials) w.

(** [c => typeof c === 'string' ? c : c.value] *)
Definition colorOf (c : jsval) : result jsval :=
  if isString c then Ok c else getProp c "value".

(** [s => typeof s === 'string' ? { value: s } : s] *)
Definition sizeOf (s : jsval) : jsval :=
  if isString s then JObj [("value", s)] else s.

(** [p.colors?.map ? p.colors.map(colorOf) : p.colors || []] *)
Definition normColors (pc : jsval) : result jsval :=
  if hasMap pc then callMap colorOf pc else Ok (orElse pc (JArr [])).

(** [p.sizes?.map ? p.sizes.map(sizeOf) : p.sizes || []] *)
Definition normSizes (ps : jsval) : result jsval :=
  if hasMap ps then callMap (λ s, Ok (sizeOf s)) ps else Ok (orElse ps (JArr [])).

(** The callback of [productsAPI.getAll]:
    [p => ({...p, image: p.main_image, colors: ..., sizes: ...})]. *)
Definition normalizeProduct (p : jsval) : result jsval :=
  main_image ← getProp p "main_image";
  pc ← getProp p "colors";
  colors ← normColors pc;
  ps ← getProp p "sizes";
  sizes ← normSizes ps;
  Ok (JObj (setProp "sizes" sizes
             (setProp "colors" colors
               (setProp "image" main_image (ownEntries p))))).

(** [productsAPI.getAll], from the response of [GET /admin/products] on:
    [response.data.products?.map(normalizeProduct) || []], wrapped as
    [{ data: { success: true, products } }]. *)
Definition normalizeProducts (raw : jsval) : result jsval :=
  match raw with
  | JUndefined | JNull => Ok (JArr [])
  | _ => callMap normalizeProduct raw
  end.

Definition productsAPI_getAll (response : httpResponse) : result jsval :=
  raw ← getProp (data response) "products";
  products ← normalizeProducts raw;
  Ok (JObj [("data", JObj [("success", JBool true); ("products", products)])]).

(** *** Derived colors and sizes *)

(** What [flatMap] appends for one callback result: the elements of an
    array, anything else as it is. *)
Definition flattened (v : jsval) : list jsval :=
  match v with
  | JArr ys => ys
  | _ => [v]
  end.

(** [products?.flatMap(p => p[key] || []) || []] *)
Definition collect (key : string) (products : jsval) : result (list jsval) :=
  match products with
  | JUndefined | JNull => Ok []
  | JArr ps =>
      @concat jsval <$> mapM (λ p, v ← getProp p key;
                                  Ok (flattened (orElse v (JArr [])))) ps
  | _ => Throw TypeError
  end.

(** Keys of a [Map] and members of a [Set] are compared by SameValueZero:
    primitives by value, objects and arrays by identity.  The collected
    values are distinct nodes of one parsed response, so an object or array
    is identical to itself only: a node carries its position as identity. *)
Record node : Type := Node {
  ident : nat;
  val : jsval
}.

Definition nodes (xs : list jsval) : list node := imap Node xs.

Definition sameValueZero (a b : node) : bool :=
  match val a, val b with
  | JUndefined, JUndefined => true
  | JNull, JNull => true
  | JBool x, JBool y => Bool.eqb x y
  | JNum x, JNum y => (x =? y)%Z
  | JStr x, JStr y => String.eqb x y
  | (JArr _ | JObj _), (JArr _ | JObj _) => Nat.eqb (ident a) (ident b)
  | _, _ => false
  end.

(** [map.set(k, v)]: a key already there keeps its place and takes the new
    value, a new key goes last. *)
Fixpoint mapSet (k : node) (v : jsval) (m : list (node * jsval))
  : list (node * jsval) :=
  match m with
  | [] => [(k, v)]
  | (k', v') :: m' =>
      if sameValueZero k' k then (k', v) :: m' else (k', v') :: mapSet k v m'
  end.

(** [new Map(entries)] *)
Definition newMap (entries : list (node * jsval)) : list (node * jsval) :=
  foldl (λ m e, mapSet e.1 e.2 m) [] entries.

(** [set.add(k)] *)
Definition setAdd (k : node) (s : list node) : list node :=
  if existsb (λ k', sameValueZero k' k) s then s else s ++ [k].

(** [new Set(members)] *)
Definition newSet (members : list node) : list node :=
  foldl (λ s k, setAdd k s) [] members.

(** [{ id: c, value: c }] *)
Definition idValue (c : jsval) : jsval := JObj [("id", c); ("value", c)].

(** [c => [typeof c === 'string' ? c : c, { id: c, value: c }]]: both
    branches of the conditional are [c]. *)
Definition colorEntry (c : node) : node * jsval :=
  (if isString (val c) then c else c, idValue (val c)).

(** [[...new Map(allColors.map(colorEntry)).values()]] *)
Definition uniqueColors (allColors : list jsval) : list jsval :=
  snd <$> newMap (colorEntry <$> nodes allColors).

(** [[...new Set(allSizes)].map(v => ({ id: v, value: v }))] *)
Definition uniqueSizes (allSizes : list jsval) : list jsval :=
  (λ k, idValue (val k)) <$> newSet (nodes allSizes).

(** [colorsAPI.getAll], from the response of [GET /admin/products] on. *)
Definition colorsAPI_getAll (response : httpResponse) : result jsval :=
  products ← getProp (data response) "products";
  allColors ← collect "colors" products;
  Ok (JObj [("data", JObj [("colors", JArr (uniqueColors allColors))])]).

(** [sizesAPI.getAll], from the response of [GET /admin/products] on. *)
Definition sizesAPI_getAll (response : httpResponse) : result jsval :=
  products ← getProp (data response) "products";
  allSizes ← collect "sizes" products;
  Ok (JObj [("data", JObj [("sizes", JArr (uniqueSizes allSizes))])]).

End Api.

Import Api.

(** ** The authentication context, [src/context/AdminAuthContext.jsx] *)

Module Auth.

(** The two pieces of React state of [AdminAuthProvider]. *)
Record authState : Type := AuthState {
  admin : jsval;
  loading : bool
}.

(** [useState(null)] and [useState(true)] *)
Definition initialState : authState := AuthState JNull true.

Definition setAdmin (user : jsval) (a : authState) : authState :=
  AuthState user (loading a).

Definition setLoading (b : bool) (a : authState) : authState :=
  AuthState (admin a) b.

(** [isAuthenticated: !!admin] *)
Definition isAuthenticated (a : authState) : bool := truthy (admin a).

(** The three states of the controller, read off the React state. *)
Inductive phase : Type :=
| Unknown
| Unauthenticated
| Authenticated (user : jsval).

Definition phaseOf (a : authState) : phase :=
  if loading a then Unknown
  else if isAuthenticated a then Authenticated (admin a)
  else Unauthenticated.

(** What [login] returns: [{ success: true }] or
    [{ success: false, error }]. *)
Inductive loginResult : Type :=
| Success
| Failure (error : jsval).

(** [logout] *)
Definition logout (w : world) (a : authState) : world * authState :=
  (removeItem USER_KEY (removeItem TOKEN_KEY w), setAdmin JNull a).

(** [error.response?.data?.error] *)
Definition errorMessage (error : exn) : jsval :=
  match error with
  | AxiosError (Some response) => getOpt (data response) "error"
  | _ => JUndefined
  end.

(** The [catch] block of [login]. *)
Definition loginCatch (error : exn) : loginResult :=
  Failure (orElse (errorMessage error) (JStr "Login failed")).

(** [role === 'ADMIN'] *)
Definition isAdminRole (role : jsval) : bool :=
  match role with
  | JStr s => String.eqb s "ADMIN"
  | _ => false
  end.

Section Platform.

(** The built-ins the context relies on: [JSON.parse] ([None] when it
    throws), [JSON.stringify], and the conversion to string that
    [localStorage.setItem] applies to its value. *)
Variable JSON_parse : string → option jsval.
Variable JSON_stringify : jsval → string.
Variable ToString : jsval → string.

(** The mount effect: restore a stored session. *)
Definition sessionRestore (w : world) (a : authState) : world * authState :=
  let token := getItem TOKEN_KEY w in
  let adminData := getItem USER_KEY w in
  let '(w', a') :=
    if itemTruthy token && itemTruthy adminData then
      match JSON_parse (default "" adminData) with
      | Some user => (w, setAdmin user a)
      | None => (removeItem USER_KEY (removeItem TOKEN_KEY w), a)
      end
    else (w, a) in
  (w', setLoading false a').

(** A page load: the provider mounts with its initial state and runs the
    mount effect. *)
Definition mount (w : world) : world * authState :=
  sessionRestore w initialState.

(** The [try] block of [login], after the request has settled. *)
Definition loginTry (settled : result httpResponse) (w : world) (a : authState)
  : result (loginResult * world * authState) :=
  response ← settled;
  token ← getProp (data response) "token";
  user ← getProp (data response) "user";
  role ← getProp user "role";
  if isAdminRole role then
    let w1 := setItem TOKEN_KEY (ToString token) w in
    let w2 := setItem USER_KEY (JSON_stringify user) w1 in
    Ok (Success, w2, setAdmin user a)
  else
    Ok (Failure (JStr "Access denied. Admin privileges required."), w, a).

(** [login(email, password)] against a given server. *)
Definition login (server : requestConfig → option httpResponse)
    (email password : string) (w : world) (a : authState)
  : loginResult * world * authState :=
  let '(settled, w0) :=
    adminAPI_login server
      (JObj [("email", JStr email); ("password", JStr password)]) w in
  match loginTry settled w0 a with
  | Ok outcome => outcome
  | Throw error => (loginCatch error, w0, a)
  end.

(** ** The operations that reach the session store *)

Inductive operation : Type :=
| OpMount
| OpLogin (server : requestConfig → option httpResponse)
          (email password : string)
| OpLogout
| OpRequest (server : requestConfig → option httpResponse)
            (config : requestConfig).

Definition step (op : operation) (s : world * authState) : world * authState :=
  match op with
  | OpMount => mount s.1
  | OpLogin server email password =>
      let '(_, w', a') := login server email password s.1 s.2 in (w', a')
  | OpLogout => logout s.1 s.2
  | OpRequest server config => ((adminAxios server config s.1).2, s.2)
  end.

Definition run (ops : list operation) (s : world * authState)
  : world * authState :=
  foldl (λ s' op, step op s') s ops.

End Platform.

End Auth.

Import Auth.

(** ** The route guard, [src/components/ProtectedRoute.jsx] *)

Module Guard.

(** What [ProtectedRoute] returns. *)
Inductive element : Type :=
| Spinner
| Outlet
| Navigate (to : string) (replace : bool).

Definition ProtectedRoute (a : authState) : element :=
  if loading a then Spinner
  else if isAuthenticated a then Outlet
  else Navigate "/login" true.

End Guard.

Import Guard.

(** ** A JSON codec to run the context on

    The context is parametric in [JSON.parse], [JSON.stringify] and the
    string conversion of [setItem].  The functions below are one instance,
    for documents without escape sequences, used to evaluate the model on
    concrete stores. *)

Module Codec.

Definition dquote : ascii := ascii_of_nat 34.
Definition backslash : ascii := ascii_of_nat 92.

Definition isSpace (c : ascii) : bool :=
  Ascii.eqb c " " || Ascii.eqb c (ascii_of_nat 10)
  || Ascii.eqb c (ascii_of_nat 13) || Ascii.eqb c (ascii_of_nat 9).

Definition isDigit (c : ascii) : bool :=
  (48 <=? nat_of_ascii c)%nat && (nat_of_ascii c <=? 57)%nat.

Fixpoint skipSpace (cs : list ascii) : list ascii :=
  match cs with
  | c :: cs' => if isSpace c then skipSpace cs' else cs
  | [] => []
  end.

(** [expect word cs]: what follows [word] at the head of [cs]. *)
Fixpoint expect (word cs : list ascii) : option (list ascii) :=
  match word, cs with
  | [], _ => Some cs
  | a :: word', c :: cs' => if Ascii.eqb a c then expect word' cs' else None
  | _ :: _, [] => None
  end.

(** The characters up to the closing quote, and what follows it. *)
Fixpoint untilQuote (cs : list ascii) : option (list ascii * list ascii) :=
  match cs with
  | [] => None
  | c :: cs' =>
      if Ascii.eqb c dquote then Some ([], cs')
      else if Ascii.eqb c backslash then None
      else '(s, rest) ← untilQuote cs'; Some (c :: s, rest)
  end.

Fixpoint digits (acc : Z) (cs : list ascii) : Z * list ascii :=
  match cs with
  | c :: cs' =>
      if isDigit c
      then digits (10 * acc + Z.of_nat (nat_of_ascii c - 48)) cs'
      else (acc, cs)
  | [] => (acc, [])
  end.

Definition number (cs : list ascii) : option (Z * list ascii) :=
  match cs with
  | c :: cs' =>
      if Ascii.eqb c "-" then
        match cs' with
        | d :: _ => if isDigit d
                    then let '(n, rest) := digits 0 cs' in Some ((- n)%Z, rest)
                    else None
        | [] => None
        end
      else if isDigit c then Some (digits 0 cs)
      else None
  | [] => None
  end.

Fixpoint value (fuel : nat) (cs : list ascii) : option (jsval * list ascii) :=
  match fuel with
  | O => None
  | S fuel' =>
      match skipSpace cs with
      | [] => None
      | c :: rest =>
          if Ascii.eqb c "n" then
            rest' ← expect (list_ascii_of_string "ull") rest; Some (JNull, rest')
          else if Ascii.eqb c "t" then
            rest' ← expect (list_ascii_of_string "rue") rest;
            Some (JBool true, rest')
          else if Ascii.eqb c "f" then
            rest' ← expect (list_ascii_of_string "alse") rest;
            Some (JBool false, rest')
          else if Ascii.eqb c dquote then
            '(s, rest') ← untilQuote rest;
            Some (JStr (string_of_list_ascii s), rest')
          else if Ascii.eqb c "[" then
            match skipSpace rest with
            | d :: rest' =>
                if Ascii.eqb d "]" then Some (JArr [], rest')
                else '(xs, rest'') ← elements fuel' rest; Some (JArr xs, rest'')
            | [] => None
            end
          else if Ascii.eqb c "{" then
            match skipSpace rest with
            | d :: rest' =>
                if Ascii.eqb d "}" then Some (JObj [], rest')
                else '(fs, rest'') ← members fuel' rest;
                     Some (JObj (foldl (λ acc f, setProp f.1 f.2 acc) [] fs),
                           rest'')
            | [] => None
            end
          else '(n, rest') ← number (c :: rest); Some (JNum n, rest')
      end
  end
with elements (fuel : nat) (cs : list ascii)
  : option (list jsval * list ascii) :=
  match fuel with
  | O => None
  | S fuel' =>
      '(x, rest) ← value fuel' cs;
      match skipSpace rest with
      | d :: rest' =>
          if Ascii.eqb d "," then
            '(xs, rest'') ← elements fuel' rest'; Some (x :: xs, rest'')
          else if Ascii.eqb d "]" then Some ([x], rest')
          else None
      | [] => None
      end
  end
with members (fuel : nat) (cs : list ascii)
  : option (list (string * jsval) * list ascii) :=
  match fuel with
  | O => None
  | S fuel' =>
      match skipSpace cs with
      | q :: rest =>
          if Ascii.eqb q dquote then
            '(k, rest1) ← untilQuote rest;
            match skipSpace rest1 with
            | colon :: rest2 =>
                if Ascii.eqb colon ":" then
                  '(x, rest3) ← value fuel' rest2;
                  match skipSpace rest3 with
                  | d :: rest4 =>
                      if Ascii.eqb d "," then
                        '(fs, rest5) ← members fuel' rest4;
                        Some ((string_of_list_ascii k, x) :: fs, rest5)
                      else if Ascii.eqb d "}"
                      then Some ([(string_of_list_ascii k, x)], rest4)
                      else None
                  | [] => None
                  end
                else None
            | [] => None
            end
          else None
      | [] => None
      end
  end.

(** [JSON.parse]: [None] where it throws a [SyntaxError].  A repeated
    member name keeps its first place and its last value. *)
Definition parse (text : string) : option jsval :=
  let cs := list_ascii_of_string text in
  '(v, rest) ← value (S (length cs)) cs;
  match skipSpace rest with
  | [] => Some v
  | _ :: _ => None
  end.

Definition quoted (s : string) : string :=
  String dquote (s +:+ String dquote EmptyString).

Definition joinWith (sep : string) (parts : list string) : string :=
  String.concat sep parts.

(** [JSON.stringify] on parsed data; [undefined] members are left out of
    objects and written [null] in arrays. *)
Fixpoint stringify (v : jsval) : string :=
  match v with
  | JUndefined | JNull => "null"
  | JBool true => "true"
  | JBool false => "false"
  | JNum n => pretty n
  | JStr s => quoted s
  | JArr xs => "[" +:+ joinWith "," (map stringify xs) +:+ "]"
  | JObj fs =>
      "{" +:+ joinWith ","
        ((fix go (fs : list (string * jsval)) : list string :=
            match fs with
            | [] => []
            | (k, JUndefined) :: fs' => go fs'
            | (k, x) :: fs' => (quoted k +:+ ":" +:+ stringify x) :: go fs'
            end) fs) +:+ "}"
  end.

(** The string conversion of a primitive, a flat array or an object. *)
Definition toString (v : jsval) : string :=
  let prim (x : jsval) : string :=
    match x with
    | JUndefined => "undefined"
    | JNull => "null"
    | JBool true => "true"
    | JBool false => "false"
    | JNum n => pretty n
    | JStr s => s
    | JArr _ => ""
    | JObj _ => "[object Object]"
    end in
  match v with
  | JArr xs =>
      joinWith ","
        (map (λ x, match x with JUndefined | JNull => "" | _ => prim x end) xs)
  | _ => prim v
  end.

End Codec.

(** ** Vocabulary of the properties *)

(** A raw product as the data model has it: an object whose [colors] and
    [sizes] are sequences, the colors holding no [null]. *)
Definition rawProduct (p : jsval) : Prop :=
  ∃ fs cs ss, p = JObj fs
    ∧ ownProp "colors" fs = Some (JArr cs)
    ∧ ownProp "sizes" fs = Some (JArr ss)
    ∧ Forall (λ c, c ≠ JNull ∧ c ≠ JUndefined) cs.

(** A [{value}] object. *)
Definition isValueObject (s : jsval) : Prop :=
  ∃ fs v, s = JObj fs ∧ ownProp "value" fs = Some v.

(** How a normalized product [q] relates to the raw product [p]. *)
Definition normalizedFrom (p q : jsval) : Prop :=
  ∃ cs ss cs' ss',
    getOpt p "colors" = JArr cs ∧ getOpt p "sizes" = JArr ss
    ∧ getOpt q "image" = getOpt p "main_image"
    ∧ getOpt q "colors" = JArr cs'
    ∧ getOpt q "sizes" = JArr ss'
    ∧ Forall2 (λ c c', (isString c = true → c' = c)
                       ∧ (isString c = false → c' = getOpt c "value")) cs cs'
    ∧ Forall2 (λ s s', (isString s = true → s' = JObj [("value", s)])
                       ∧ (isString s = false → s' = s)) ss ss'
    ∧ (∀ k, k ≠ "image" → k ≠ "colors" → k ≠ "sizes" →
            getOpt q k = getOpt p k)
    ∧ (Forall (λ c, isString c = true
                    ∨ isString (getOpt c "value") = true) cs →
       Forall (λ c', isString c' = true) cs')
    ∧ (Forall (λ s, isString s = true ∨ isValueObject s) ss →
       Forall isValueObject ss').

(** Index keys are written with digits only. *)
Definition allDigits (s : string) : bool :=
  forallb Codec.isDigit (list_ascii_of_string s).

(** A record in normal form: [image] repeats [main_image], [colors] is a
    sequence of plain strings and [sizes] a sequence of [{value}] objects. *)
Definition normalizedRecord (fs : list (string * jsval)) : Prop :=
  ownProp "image" fs = Some (default JUndefined (ownProp "main_image" fs))
  ∧ (∃ cs, ownProp "colors" fs = Some (JArr cs)
           ∧ Forall (λ c, isString c = true) cs)
  ∧ (∃ ss, ownProp "sizes" fs = Some (JArr ss) ∧ Forall isValueObject ss).

(** The colors of a record, when a sequence, are plain strings. *)
Definition plainColors (q : jsval) : Prop :=
  ∀ cs, getOpt q "colors" = JArr cs → Forall (λ c, isString c = true) cs.

(** What one run of the handler on a 401 does, in order. *)
Definition clearAndRedirect : list effect :=
  [RemoveItem TOKEN_KEY; RemoveItem USER_KEY; SetHref "/login"].

(** [error.response?.status === 401] *)
Definition is401 (error : exn) : bool :=
  bool_decide (errorStatus error = Some 401%Z).

(** Number of assignments to [window.location.href] in a journal. *)
Definition redirectCount (j : list effect) : nat :=
  length (List.filter (λ e, match e with SetHref _ => true | _ => false end) j).

(** Number of [removeItem(key)] calls in a journal. *)
Definition removeCount (key : string) (j : list effect) : nat :=
  length (List.filter
            (λ e, match e with
                  | RemoveItem k => String.eqb k key
                  | _ => false
                  end) j).

(** The request [login] sends, as it leaves the request interceptor. *)
Definition loginRequest (email password : string) (w : world)
  : requestConfig :=
  requestInterceptor w
    (RequestConfig "post" "/auth/login" ∅
       (JObj [("email", JStr email); ("password", JStr password)])).

(** The store after an effect. *)
Definition applyEffect (m : gmap string string) (e : effect)
  : gmap string string :=
  match e with
  | SetItem k v => <[k := v]> m
  | RemoveItem k => delete k m
  | SetHref _ => m
  end.

(** The store after a journal of effects. *)
Definition replay (j : list effect) (m : gmap string string)
  : gmap string string :=
  foldl applyEffect m j.

(** Journals in which the token and the user record are only ever written
    one after the other, or removed one after the other. *)
Inductive paired : list effect → Prop :=
| paired_nil : paired []
| paired_set (t u : string) (j : list effect) :
    paired j → paired (SetItem TOKEN_KEY t :: SetItem USER_KEY u :: j)
| paired_remove (j : list effect) :
    paired j → paired (RemoveItem TOKEN_KEY :: RemoveItem USER_KEY :: j)
| paired_href (url : string) (j : list effect) :
    paired j → paired (SetHref url :: j).

(** Both entries are stored, or neither is. *)
Definition bothOrNeither (m : gmap string string) : Prop :=
  is_Some (m !! TOKEN_KEY) ↔ is_Some (m !! USER_KEY).

(** What an operation adds to the world: a journal [j] that is [paired] and
    accounts for the whole change of the store. *)
Definition extendsBy (w w' : world) (j : list effect) : Prop :=
  journal w' = journal w ++ j ∧ storage w' = replay j (storage w).

(** The members of a list in the order of their first appearance: a member
    is kept when none of the members before it is the same value;
    [before] holds the members already passed. *)
Fixpoint firstAppearances (before ks : list node) : list node :=
  match ks with
  | [] => []
  | k :: ks' =>
      if existsb (λ k', sameValueZero k' k) before
      then firstAppearances (before ++ [k]) ks'
      else k :: firstAppearances (before ++ [k]) ks'
  end.

(** [v == null]: [null] or [undefined], the values a property read throws
    on. *)
Definition nullish (v : jsval) : bool :=
  match v with
  | JNull | JUndefined => true
  | _ => false
  end.

(** Values compared by value: everything but objects and arrays. *)
Definition isPrimitive (v : jsval) : bool :=
  match v with
  | JArr _ | JObj _ => false
  | _ => true
  end.

(** ** The pages that drive the context *)

Module Pages.

(** The router's history, the current location first. *)
Definition navigate (to : string) (history : list string) : list string :=
  to :: history.

(** The form state of [AdminLogin] that [handleSubmit] touches: the error
    shown in the banner ([{error && ...}]) and the flag that disables the
    button. *)
Record loginForm : Type := LoginForm {
  formError : jsval;
  formLoading : bool
}.

(** What the page shows for [{error && (<div ...>{error}</div>)}]. *)
Inductive banner : Type :=
| NoBanner
| Banner (text : string)
| RenderError.

(** [handleLogout] of [AdminLayout]: [logout(); navigate('/login')]. *)
Definition handleLogout (w : world) (a : authState) (history : list string)
  : world * authState * list string :=
  let '(w', a') := logout w a in (w', a', navigate "/login" history).

Section Platform.

Variable JSON_stringify : jsval → string.
Variable ToString : jsval → string.

(** What React makes of a value rendered as a child, [{v}]: the text of a
    string or of a number, nothing for a boolean, [null] or [undefined],
    the children of an array one after the other.  An object is refused
    (Objects are not valid as a React child) and the render throws:
    [None]. *)
Fixpoint childText (v : jsval) : option string :=
  match v with
  | JUndefined | JNull | JBool _ => Some ""
  | JNum _ => Some (ToString v)
  | JStr s => Some s
  | JArr xs =>
      (fix children (xs : list jsval) : option string :=
         match xs with
         | [] => Some ""
         | x :: xs' =>
             match childText x, children xs' with
             | Some text, Some texts => Some (text +:+ texts)
             | _, _ => None
             end
         end) xs
  | JObj _ => None
  end.

(** The banner of [AdminLogin]: rendered when [error] is truthy, with
    [error] as its child. *)
Definition loginBanner (form : loginForm) : banner :=
  if truthy (formError form) then
    match childText (formError form) with
    | Some text => Banner text
    | None => RenderError
    end
  else NoBanner.

(** [handleSubmit] of [AdminLogin]: clear the error, raise the loading flag,
    await [login], lower the flag, then navigate or show the error. *)
Definition handleSubmit (server : requestConfig → option httpResponse)
    (email password : string) (w : world) (a : authState)
    (history : list string)
  : world * authState * loginForm * list string :=
  let form1 := LoginForm (JStr "") true in
  let '(result, w', a') :=
    login JSON_stringify ToString server email password w a in
  let form2 := LoginForm (formError form1) false in
  match result with
  | Success => (w', a', form2, navigate "/products" history)
  | Failure error => (w', a', LoginForm error (formLoading form2), history)
  end.

End Platform.

End Pages.

Import Pages.

(** ** The resource wrappers of [src/services/api.js] *)

Module Resources.

(** One constructor for each exported wrapper, with its arguments. *)
Inductive apiCall : Type :=
| AdminLogin (credentials : jsval)
| ProductsGetAll
| ProductsGetById (id : jsval)
| ProductsCreate (formData : jsval)
| ProductsUpdate (id formData : jsval)
| ProductsDelete (id : jsval)
| ProductsMarkOnSale (id salePrice : jsval)
| ProductsRemoveFromSale (id : jsval)
| InventoryUpdate (productId payload : jsval)
| OrdersGetAll
| OrdersGetById (orderId : jsval)
| ColorsGetAll
| SizesGetAll.

(** [headers: { 'Content-Type': 'multipart/form-data' }] *)
Definition multipart : gmap string string :=
  {["Content-Type" := "multipart/form-data"]}.

Section Platform.

(** The string conversion of template literals. *)
Variable ToString : jsval → string.

(** The request each wrapper hands to [adminAxios]. *)
Definition requestOf (call : apiCall) : requestConfig :=
  match call with
  | AdminLogin credentials =>
      RequestConfig "post" "/auth/login" ∅ credentials
  | ProductsGetAll | ColorsGetAll | SizesGetAll =>
      RequestConfig "get" "/admin/products" ∅ JUndefined
  | ProductsGetById id =>
      RequestConfig "get" ("/admin/products/" +:+ ToString id) ∅ JUndefined
  | ProductsCreate formData =>
      RequestConfig "post" "/admin/products" multipart formData
  | ProductsUpdate id formData =>
      RequestConfig "put" ("/admin/products/" +:+ ToString id) multipart
                    formData
  | ProductsDelete id =>
      RequestConfig "delete" ("/admin/products/" +:+ ToString id) ∅ JUndefined
  | ProductsMarkOnSale id salePrice =>
      RequestConfig "patch"
                    ("/admin/products/" +:+ ToString id +:+ "/sale/mark") ∅
                    (JObj [("sale_price", salePrice)])
  | ProductsRemoveFromSale id =>
      RequestConfig "patch"
                    ("/admin/products/" +:+ ToString id +:+ "/sale/remove") ∅
                    JUndefined
  | InventoryUpdate productId payload =>
      RequestConfig "patch"
                    ("/admin/products/" +:+ ToString productId
                     +:+ "/inventory") ∅ payload
  | OrdersGetAll => RequestConfig "get" "/admin/orders" ∅ JUndefined
  | OrdersGetById orderId =>
      RequestConfig "get" ("/admin/orders/" +:+ ToString orderId) ∅ JUndefined
  end.



End Platform.

End Resources.

(** ** Loading the catalogue, [fetchData] of [ProductManagement] *)

Module Catalog.

(** The state [fetchData] sets. *)
Record catalogState : Type := CatalogState {
  stProducts : jsval;
  stColors : jsval;
  stSizes : jsval;
  stLoading : bool;
  stError : string
}.

(** [useState([])] three times, [useState(true)], [useState('')]. *)
Definition initialCatalog : catalogState :=
  CatalogState (JArr []) (JArr []) (JArr []) true "".

(** [setProducts], [setColors], [setSizes], [setError]. *)
Definition setProducts (v : jsval) (st : catalogState) : catalogState :=
  CatalogState v (stColors st) (stSizes st) (stLoading st) (stError st).

Definition setColors (v : jsval) (st : catalogState) : catalogState :=
  CatalogState (stProducts st) v (stSizes st) (stLoading st) (stError st).

Definition setSizes (v : jsval) (st : catalogState) : catalogState :=
  CatalogState (stProducts st) (stColors st) v (stLoading st) (stError st).

Definition setError (v : string) (st : catalogState) : catalogState :=
  CatalogState (stProducts st) (stColors st) (stSizes st) (stLoading st) v.

(** [res.data[key] || res.data || []] and, for the products,
    [res.data.products || []]. *)
Definition listOf (res : jsval) (key : string) (orData : bool) : result jsval :=
  d ← getProp res "data";
  l ← getProp d key;
  Ok (orElse (if orData then orElse l d else l) (JArr [])).

(** The three [set...] calls after [Promise.all] has fulfilled, one after
    the other: a call that throws leaves the lists set before it in place.
    The second component is the exception, if any. *)
Definition store (productsRes colorsRes sizesRes : jsval) (st : catalogState)
  : catalogState * option exn :=
  match listOf productsRes "products" false with
  | Throw e => (st, Some e)
  | Ok products =>
      let st1 := setProducts products st in
      match listOf colorsRes "colors" true with
      | Throw e => (st1, Some e)
      | Ok colors =>
          let st2 := setColors colors st1 in
          match listOf sizesRes "sizes" true with
          | Throw e => (st2, Some e)
          | Ok sizes => (setSizes sizes st2, None)
          end
      end
  end.

(** [fetchData].  The three requests of [Promise.all] are issued together,
    so each leaves the request interceptor with the store as [fetchData]
    found it; [server i] answers the request issued [i]-th.  Every reply
    goes through the response interceptor; [Promise.all] is fulfilled when
    all three wrappers are, and rejected otherwise. *)
Definition fetchData (server : nat → requestConfig → option httpResponse)
    (w : world) (st : catalogState) : world * catalogState :=
  let st1 :=
    CatalogState (stProducts st) (stColors st) (stSizes st) true (stError st) in
  let config :=
    requestInterceptor w (RequestConfig "get" "/admin/products" ∅ JUndefined) in
  let settled (i : nat) := settle (server i config) in
  let w' :=
    foldl (λ w0 r, (responseInterceptor r w0).2) w
          [settled 0; settled 1; settled 2] in
  let all :=
    productsRes ← settled 0 ≫= productsAPI_getAll;
    colorsRes ← settled 1 ≫= colorsAPI_getAll;
    sizesRes ← settled 2 ≫= sizesAPI_getAll;
    Ok (productsRes, colorsRes, sizesRes) in
  let st2 :=
    match all with
    | Ok (productsRes, colorsRes, sizesRes) =>
        match store productsRes colorsRes sizesRes st1 with
        | (st', None) => st'
        | (st', Some _) => setError "Failed to load data" st'
        end
    | Throw _ => setError "Failed to load data" st1
    end in
  (w',
   CatalogState (stProducts st2) (stColors st2) (stSizes st2) false
                (stError st2)).

End Catalog.

(** ** The variant form of [ProductManagement] *)

Module Variants.

(** One size row, [{ value, quantity }]. *)
Record sizeRow : Type := SizeRow {
  rowValue : jsval;
  rowQuantity : jsval
}.

(** One variant, [{ color, sizes, isCustomColor }]. *)
Record variant : Type := Variant {
  vColor : jsval;
  vSizes : list sizeRow;
  vCustom : jsval
}.

(** [{ value: '', quantity: '' }] *)
Definition blankRow : sizeRow := SizeRow (JStr "") (JStr "").

(** [{ color: '', sizes: [{ value: '', quantity: '' }], isCustomColor: false }] *)
Definition blank : variant := Variant (JStr "") [blankRow] (JBool false).

(** [{ color: '', sizes: [{ value: '', quantity: '' }] }], the variant the
    form is reset to after a product was created or updated. *)
Definition blankAfterSubmit : variant :=
  Variant (JStr "") [blankRow] JUndefined.

(** The initial [useState] value. *)
Definition initial : list variant := [blank].

(** The two fields [updateVariantSize] is called with. *)
Inductive field : Type :=
| FieldValue
| FieldQuantity.

(** [copy[i].prop = ...] on the copy [[...list]]: the element at [i] is
    changed; when there is none, reading a property of [undefined]
    throws. *)
Definition alterAt {A : Type} (i : nat) (f : A → A) (l : list A)
  : result (list A) :=
  match l !! i with
  | Some x => Ok (<[i := f x]> l)
  | None => Throw TypeError
  end.

(** [list.filter((_, i) => i !== index)] *)
Definition removeAt {A : Type} (index : nat) (l : list A) : list A :=
  delete index l.

(** What the form's handlers do to the list of variants. *)
Inductive action : Type :=
| AddVariant
| RemoveVariant (index : nat)
| UpdateColor (index : nat) (color : jsval)
| SelectCustom (index : nat)
| CancelCustom (index : nat)
| AddSize (variantIndex : nat)
| RemoveSize (variantIndex sizeIndex : nat)
| UpdateSize (variantIndex sizeIndex : nat) (f : field) (value : jsval)
| ResetAfterSubmit
| ResetForEdit.

Definition setField (f : field) (value : jsval) (row : sizeRow) : sizeRow :=
  match f with
  | FieldValue => SizeRow value (rowQuantity row)
  | FieldQuantity => SizeRow (rowValue row) value
  end.

Definition apply (a : action) (variants : list variant)
  : result (list variant) :=
  match a with
  | AddVariant => Ok (variants ++ [blank])
  | RemoveVariant index =>
      let newVariants := removeAt index variants in
      Ok (if (0 <? length newVariants)%nat then newVariants else [blank])
  | UpdateColor index color =>
      alterAt index (λ v, Variant color (vSizes v) (vCustom v)) variants
  | SelectCustom index =>
      alterAt index (λ v, Variant (JStr "") (vSizes v) (JBool true)) variants
  | CancelCustom index =>
      alterAt index (λ v, Variant (JStr "") (vSizes v) (JBool false)) variants
  | AddSize variantIndex =>
      alterAt variantIndex
              (λ v, Variant (vColor v) (vSizes v ++ [blankRow]) (vCustom v))
              variants
  | RemoveSize variantIndex sizeIndex =>
      alterAt variantIndex
              (λ v, let sizes := removeAt sizeIndex (vSizes v) in
                    Variant (vColor v)
                            (if (length sizes =? 0)%nat then [blankRow]
                             else sizes)
                            (vCustom v))
              variants
  | UpdateSize variantIndex sizeIndex f value =>
      match variants !! variantIndex with
      | Some v =>
          sizes ← alterAt sizeIndex (setField f value) (vSizes v);
          Ok (<[variantIndex := Variant (vColor v) sizes (vCustom v)]> variants)
      | None => Throw TypeError
      end
  | ResetAfterSubmit => Ok [blankAfterSubmit]
  | ResetForEdit => Ok [blank]
  end.

(** The handlers one after the other, stopping at the first that throws. *)
Fixpoint run (actions : list action) (variants : list variant)
  : result (list variant) :=
  match actions with
  | [] => Ok variants
  | a :: rest => variants' ← apply a variants; run rest variants'
  end.

(** The indexes the form can pass: those of the rows it renders. *)
Definition inRange (a : action) (variants : list variant) : Prop :=
  match a with
  | UpdateColor i _ | SelectCustom i | CancelCustom i | AddSize i
  | RemoveSize i _ => i < length variants
  | UpdateSize i j _ _ =>
      ∃ v, variants !! i = Some v ∧ j < length (vSizes v)
  | _ => True
  end.

(** [v.color && v.sizes.some(s => s.value)] *)
Definition filled (v : variant) : bool :=
  truthy (vColor v) && existsb (λ s, truthy (rowValue s)) (vSizes v).

Section Platform.

(** [parseInt] *)
Variable parseInt : jsval → jsval.

(** [s => ({ value: s.value, quantity: parseInt(s.quantity) || 0 })] *)
Definition formatRow (s : sizeRow) : jsval :=
  JObj [("value", rowValue s);
        ("quantity", orElse (parseInt (rowQuantity s)) (JNum 0))].

(** [formattedVariants] of [handleAddProduct]: every variant, every row. *)
Definition formatForCreate (variants : list variant) : list jsval :=
  (λ v, JObj [("color", vColor v);
              ("sizes", JArr (formatRow <$> vSizes v))]) <$> variants.

(** [formattedVariants] of [handleEditProduct], over [filledVariants]:
    [None] when the [variants] field is not appended to the form data. *)
Definition formatForEdit (variants : list variant) : option (list jsval) :=
  let filledVariants := List.filter filled variants in
  if (0 <? length filledVariants)%nat then
    Some ((λ v, JObj [("color", vColor v);
                      ("sizes",
                       JArr (formatRow
                               <$> List.filter (λ s, truthy (rowValue s))
                                               (vSizes v)))])
            <$> filledVariants)
  else None.

End Platform.

End Variants.

(** The form shows at least one variant, and every variant at least one
    size row. *)
Definition wellFormedVariants (variants : list Variants.variant) : Prop :=
  variants ≠ [] ∧ Forall (λ v, Variants.vSizes v ≠ []) variants.

(** A size row as it reads in the request: its value, and its quantity
    through [parseInt(quantity) || 0]. *)
Definition sentRow (parseInt : jsval → jsval) (s : Variants.sizeRow)
    (r : jsval) : Prop :=
  getOpt r "value" = Variants.rowValue s
  ∧ getOpt r "quantity" = orElse (parseInt (Variants.rowQuantity s)) (JNum 0).

(** An entry of the [variants] field that reads as the given colour with
    the given size rows, in order. *)
Definition sentVariant (parseInt : jsval → jsval) (color : jsval)
    (sizes : list Variants.sizeRow) (entry : jsval) : Prop :=
  getOpt entry "color" = color
  ∧ ∃ rows, getOpt entry "sizes" = JArr rows
            ∧ Forall2 (sentRow parseInt) sizes rows.

(** ** The route table, [src/App.jsx] *)

Module Routing.

(** The entries of the route table; which one a location matches is the
    router's business. *)
Inductive route : Type :=
| RouteLogin        (* path="/login" *)
| RouteIndex        (* path="/" *)
| RouteProducts     (* path="/products" *)
| RouteOrders       (* path="/orders" *)
| RouteCatchAll.    (* path="*" *)

(** What a route puts on the screen. *)
Inductive screen : Type :=
| LoginScreen       (* <AdminLogin /> *)
| ProductsScreen    (* <AdminLayout> around <ProductManagement /> *)
| OrdersScreen      (* <AdminLayout> around <OrderManagement /> *)
| SpinnerScreen
| NavigateTo (to : string) (replace : bool).

(** The element tree of [App]: the login page is public, the catch-all
    navigates to it, everything else sits under [ProtectedRoute]. *)
Definition render (r : route) (a : authState) : screen :=
  match r with
  | RouteLogin => LoginScreen
  | RouteCatchAll => NavigateTo "/login" true
  | RouteIndex | RouteProducts | RouteOrders =>
      match ProtectedRoute a with
      | Spinner => SpinnerScreen
      | Navigate to replace => NavigateTo to replace
      | Outlet =>
          match r with
          | RouteIndex => NavigateTo "/products" true
          | RouteProducts => ProductsScreen
          | _ => OrdersScreen
          end
      end
  end.

(** The route matched by the locations the application itself navigates
    to, which are written as in the route table. *)
Definition routeOf (path : string) : route :=
  if String.eqb path "/login" then RouteLogin
  else if String.eqb path "/" then RouteIndex
  else if String.eqb path "/products" then RouteProducts
  else if String.eqb path "/orders" then RouteOrders
  else RouteCatchAll.

(** Where the application goes next on its own: a rendered [<Navigate>], or
    the effect of [AdminLogin], [if (isAuthenticated) navigate('/products')].
    [None] when it stays. *)
Definition next (r : route) (a : authState) : option (string * bool) :=
  match render r a with
  | NavigateTo to replace => Some (to, replace)
  | LoginScreen => if isAuthenticated a then Some ("/products", false) else None
  | _ => None
  end.

(** The history after the application has navigated on its own at most
    [fuel] times, the current location first. *)
Fixpoint settleAt (fuel : nat) (r : route) (history : list string)
    (a : authState) : route * list string :=
  match fuel with
  | O => (r, history)
  | S fuel' =>
      match next r a with
      | Some (to, replace) =>
          settleAt fuel' (routeOf to)
                   (to :: if replace then tail history else history) a
      | None => (r, history)
      end
  end.

(** Opening [path], which the router matches to [r]. *)
Definition visit (path : string) (r : route) (history : list string)
    (a : authState) : route * list string :=
  settleAt 3 r (path :: history) a.

End Routing.

(** ** Image locations, [getImageUrl] of [ProductManagement] *)

Module Images.

Definition placeholder : string :=
  "https://via.placeholder.com/100x100?text=No+Image".

Section Config.

(** [API_BASE], read from the build configuration. *)
Variable API_BASE : string.

(** [getImageUrl(imagePath)].  Only a string has [startsWith]; on any other
    truthy value the call throws. *)
Definition getImageUrl (imagePath : jsval) : result string :=
  if negb (truthy imagePath) then Ok placeholder
  else match imagePath with
       | JStr path =>
           if String.prefix "http" path then Ok path
           else Ok (API_BASE +:+ path)
       | _ => Throw TypeError
       end.

End Config.

End Images.

(** ** The order detail modal, [handleViewOrder] of [OrderManagement] *)

Module Orders.

(** The two pieces of state the handler sets. *)
Record detailState : Type := DetailState {
  selectedOrder : jsval;
  showOrderDetail : bool
}.

(** [{showOrderDetail && selectedOrder && (...)}] *)
Definition modalShown (st : detailState) : bool :=
  showOrderDetail st && truthy (selectedOrder st).

Section Platform.

Variable ToString : jsval → string.



End Platform.

End Orders.

(** ** The inventory rows, [toggleInventory] of [ProductManagement] *)

Module Inventory.

(** The two pieces of state behind the expanded row.  A product id is a
    value of the product list, compared with [===]. *)
Record expansion : Type := Expansion {
  expandedProduct : node;
  productDetails : jsval
}.

(** [null], which is identical to every other [null]. *)
Definition null : node := Node 0 JNull.

(** [useState(null)] twice. *)
Definition collapsed : expansion := Expansion null JNull.

(** [a === b]; on the values modelled here, which have no [NaN], it agrees
    with the comparison of [Map] and [Set] keys. *)
Definition strictEquals (a b : node) : bool := sameValueZero a b.

(** [{expandedProduct === product.id && productDetails && (...)}] *)
Definition rowShown (productId : node) (st : expansion) : bool :=
  strictEquals (expandedProduct st) productId && truthy (productDetails st).

Section Platform.

Variable ToString : jsval → string.

(** [fetchProductDetails(productId)]: the details are set when the request
    is fulfilled; a rejection is logged and sets nothing.  The third
    component is the value returned. *)
Definition fetchProductDetails (server : requestConfig → option httpResponse)
    (productId : jsval) (st : expansion) (w : world)
  : world * expansion * jsval :=
  let '(settled, w') :=
    adminAxios server
      (Resources.requestOf ToString (Resources.ProductsGetById productId)) w in
  match settled with
  | Ok response =>
      (w', Expansion (expandedProduct st) (data response), data response)
  | Throw _ => (w', st, JNull)
  end.

(** [toggleInventory(productId)] *)
Definition toggleInventory (server : requestConfig → option httpResponse)
    (productId : node) (st : expansion) (w : world) : world * expansion :=
  if strictEquals (expandedProduct st) productId
  then (w, Expansion null JNull)
  else
    let st1 := Expansion productId (productDetails st) in
    let '(w', st2, _) := fetchProductDetails server (val productId) st1 w in
    (w', st2).

End Platform.

End Inventory.

(** ** The delete confirmation, [confirmDelete] of [ProductManagement] *)

Module Deletion.

Record deletion : Type := Deletion {
  productToDelete : jsval;
  showDeleteModal : bool;
  deleting : bool
}.


(** [{showDeleteModal && productToDelete && (...)}] *)
Definition modalShown (st : deletion) : bool :=
  showDeleteModal st && truthy (productToDelete st).



Section Platform.

Variable ToString : jsval → string.


End Platform.

End Deletion.

(** ** The order table, [fetchOrders] and [truncateId] of [OrderManagement] *)

Module OrderTable.

Record orderList : Type := OrderList {
  orders : jsval;
  listLoading : bool;
  listError : string
}.

(** [useState([])], [useState(true)], [useState('')]. *)
Definition initialOrders : orderList := OrderList (JArr []) true "".

(** [fetchOrders] *)
Definition fetchOrders (server : requestConfig → option httpResponse)
    (w : world) (st : orderList) : world * orderList :=
  let st1 := OrderList (orders st) true (listError st) in
  let '(settled, w') :=
    adminAxios server (RequestConfig "get" "/admin/orders" ∅ JUndefined) w in
  let st2 :=
    match (response ← settled; getProp (data response) "orders") with
    | Ok found =>
        OrderList (orElse found (JArr [])) (listLoading st1) (listError st1)
    | Throw _ =>
        OrderList (orders st1) (listLoading st1) "Failed to load orders"
    end in
  (w', OrderList (orders st2) false (listError st2)).

(** The horizontal ellipsis of the template. *)
Definition ellipsis : string := "…".

(** [s.substring(start, finish)]: both ends are clamped to the string and
    swapped when out of order.  Strings are read as sequences of code
    units. *)
Definition substring (s : string) (start finish : Z) : string :=
  let len := Z.of_nat (String.length s) in
  let clamp (x : Z) := Z.max 0 (Z.min x len) in
  let lo := Z.min (clamp start) (clamp finish) in
  let hi := Z.max (clamp start) (clamp finish) in
  string_of_list_ascii
    (take (Z.to_nat (hi - lo)) (drop (Z.to_nat lo) (list_ascii_of_string s))).

(** [truncateId(id)]; [id.substring(n)] runs to the end of the string.
    Only a string has [substring]: on any other truthy value the call
    throws. *)
Definition truncateId (id : jsval) : result string :=
  if truthy id then
    match id with
    | JStr s =>
        let len := Z.of_nat (String.length s) in
        Ok (substring s 0 4 +:+ ellipsis +:+ substring s (len - 3) len)
    | _ => Throw TypeError
    end
  else Ok "-".

End OrderTable.

(** * Properties *)

(** ** Objects under construction *)

Lemma ownProp_setProp_eq (k : string) (v : jsval) (fs : list (string * jsval)) :
  ownProp k (setProp k v fs) = Some v.
Proof.
  induction fs as [|[k' v'] fs IH]; simpl.
  - by rewrite String.eqb_refl.
  - destruct (String.eqb k k') eqn:E; simpl.
    + by rewrite String.eqb_refl.
    + by rewrite E.
Qed.

Lemma ownProp_setProp_ne (k k' : string) (v : jsval)
    (fs : list (string * jsval)) :
  k ≠ k' → ownProp k' (setProp k v fs) = ownProp k' fs.
Proof.
  intros Hne. induction fs as [|[k0 v0] fs IH]; simpl.
  - destruct (String.eqb_spec k' k); congruence.
  - destruct (String.eqb_spec k k0) as [->|Hk]; simpl.
    + destruct (String.eqb_spec k' k0); congruence.
    + destruct (String.eqb_spec k' k0); congruence.
Qed.

Lemma setProp_same (k : string) (v : jsval) (fs : list (string * jsval)) :
  ownProp k fs = Some v → setProp k v fs = fs.
Proof.
  induction fs as [|[k' v'] fs IH]; simpl; [done|].
  destruct (String.eqb_spec k k') as [->|Hk].
  - by intros [= ->].
  - intros H. by rewrite IH.
Qed.

(** ** Mapping a callback that may throw *)

Lemma mapM_total (f : jsval → jsval) (xs : list jsval) :
  mapM (λ x, Ok (f x)) xs = Ok (f <$> xs).
Proof.
  induction xs as [|x xs IH]; [done|].
  change (mapM (λ x, Ok (f x)) (x :: xs))
    with (y ← Ok (f x); k ← mapM (λ x, Ok (f x)) xs; mret (y :: k)).
  by rewrite IH.
Qed.

Lemma mapM_Forall2 (f : jsval → result jsval) (R : jsval → jsval → Prop)
    (xs : list jsval) :
  Forall (λ x, ∃ y, f x = Ok y ∧ R x y) xs →
  ∃ ys, mapM f xs = Ok ys ∧ Forall2 R xs ys.
Proof.
  induction 1 as [|x xs (y & Hy & HR) _ (ys & Hys & IH)].
  - by exists [].
  - exists (y :: ys). split; [|by constructor].
    change (mapM f (x :: xs)) with (y ← f x; k ← mapM f xs; mret (y :: k)).
    by rewrite Hy, Hys.
Qed.

Lemma mapM_fixed (f : jsval → result jsval) (xs : list jsval) :
  Forall (λ x, f x = Ok x) xs → mapM f xs = Ok xs.
Proof.
  induction 1 as [|x xs Hx _ IH]; [done|].
  change (mapM f (x :: xs)) with (y ← f x; k ← mapM f xs; mret (y :: k)).
  by rewrite Hx, IH.
Qed.

(** ** Product listing normalization *)

(** The two callbacks, case by case. *)
Lemma colorOf_string (s : string) : colorOf (JStr s) = Ok (JStr s).
Proof. done. Qed.

Lemma colorOf_object (fs : list (string * jsval)) :
  colorOf (JObj fs) = Ok (default JUndefined (ownProp "value" fs)).
Proof. done. Qed.

Lemma colorOf_spec (c : jsval) :
  c ≠ JNull → c ≠ JUndefined →
  ∃ c', colorOf c = Ok c'
        ∧ (isString c = true → c' = c)
        ∧ (isString c = false → c' = getOpt c "value").
Proof.
  intros Hn Hu. destruct c; try done; eexists; (split; [done|]); by split.
Qed.

Lemma sizeOf_spec (s : jsval) :
  (isString s = true → sizeOf s = JObj [("value", s)])
  ∧ (isString s = false → sizeOf s = s).
Proof. unfold sizeOf. by destruct (isString s). Qed.

Lemma sizeOf_idempotent (s : jsval) : sizeOf (sizeOf s) = sizeOf s.
Proof. by destruct s. Qed.

Lemma normalizeProduct_raw (p : jsval) :
  rawProduct p → ∃ q, normalizeProduct p = Ok q ∧ normalizedFrom p q.
Proof.
  intros (fs & cs & ss & -> & Hc & Hs & Hcs).
  destruct (mapM_Forall2 colorOf
    (λ c c', (isString c = true → c' = c)
             ∧ (isString c = false → c' = getOpt c "value")) cs)
    as (cs' & Hcs' & HR).
  { eapply Forall_impl; [exact Hcs|]. intros c [Hn Hu].
    destruct (colorOf_spec c Hn Hu) as (c' & ? & ?). by exists c'. }
  eexists. split.
  - unfold normalizeProduct. simpl. rewrite Hc, Hs. simpl.
    unfold normColors, normSizes. simpl. rewrite Hcs'. simpl.
    rewrite mapM_total. simpl. reflexivity.
  - exists cs, ss, cs', (sizeOf <$> ss). simpl. rewrite Hc, Hs. simpl.
    repeat split; try done.
    + rewrite ownProp_setProp_ne, ownProp_setProp_ne, ownProp_setProp_eq by done.
      done.
    + by rewrite ownProp_setProp_ne, ownProp_setProp_eq.
    + by rewrite ownProp_setProp_eq.
    + clear. induction ss as [|s ss IH]; constructor; [apply sizeOf_spec|done].
    + intros k H1 H2 H3.
      by rewrite !ownProp_setProp_ne by done.
    + intros Hin. clear -HR Hin.
      induction HR as [|c c' cs cs' [Hstr Hobj] _ IH]; [constructor|].
      apply Forall_cons in Hin as [Hc Hin]. constructor; [|by apply IH].
      destruct (isString c) eqn:E.
      * by rewrite Hstr.
      * rewrite Hobj by done. by destruct Hc.
    + intros Hin. clear -Hin.
      induction Hin as [|s ss Hs _ IH]; [constructor|].
      rewrite fmap_cons. constructor; [|done].
      destruct Hs as [Hs|(fs' & v & -> & Hv)].
      * destruct s; try discriminate Hs. by eexists _, _.
      * by exists fs', v.
Qed.

(** C1 (amended).  For every product list response whose [products] are raw
    products, [productsAPI.getAll] returns [{data: {success: true,
    products}}] where each raw product is mapped to a record that keeps its
    other properties and in which [image] is the raw [main_image]; in
    [colors] a bare string is kept and any other element is replaced by its
    [value] property; in [sizes] a bare string [s] is wrapped as
    [{value: s}] and any other element, a [{value}] object but also a bare
    number, is kept as it is. *)
Theorem getAll_normalizes_products (response : httpResponse)
    (ps : list jsval) :
  getOpt (data response) "products" = JArr ps →
  Forall rawProduct ps →
  ∃ qs,
    productsAPI_getAll response
    = Ok (JObj [("data", JObj [("success", JBool true);
                              ("products", JArr qs)])])
    ∧ Forall2 normalizedFrom ps qs.
Proof.
  intros Hps Hraw.
  destruct (mapM_Forall2 normalizeProduct normalizedFrom ps) as (qs & Hqs & HR).
  { eapply Forall_impl; [exact Hraw|]. apply normalizeProduct_raw. }
  exists qs. split; [|done].
  unfold productsAPI_getAll.
  destruct (data response) as [| | | | | |fs]; try discriminate Hps.
  simpl in *. rewrite Hps. simpl. by rewrite Hqs.
Qed.

(** The scenario of the specification, through the theorem. *)
Lemma getAll_normalizes_products_witness :
  let p := JObj [("colors", JArr [JStr "red"; JObj [("value", JStr "blue")]]);
                 ("sizes", JArr [JStr "7"; JObj [("value", JStr "8")]])] in
  let response := HttpResponse 200 (JObj [("products", JArr [p])]) in
  getOpt (data response) "products" = JArr [p]
  ∧ Forall rawProduct [p]
  ∧ ∃ qs,
      productsAPI_getAll response
      = Ok (JObj [("data", JObj [("success", JBool true);
                                ("products", JArr qs)])])
      ∧ Forall2 normalizedFrom [p] qs.
Proof.
  intros p response.
  assert (Hraw : Forall rawProduct [p]).
  { constructor; [|constructor].
    eexists _, _, _. split; [reflexivity|]. split; [reflexivity|].
    split; [reflexivity|]. by repeat constructor. }
  split; [reflexivity|]. split; [exact Hraw|].
  exact (getAll_normalizes_products response [p] eq_refl Hraw).
Defined.

(** C1 as stated fails on a bare number: the raw size [7] is not wrapped as
    [{value: 7}] but kept, so [sizes] is not a sequence of [{value}]
    objects. *)
Lemma getAll_bare_number_size_kept :
  let p := JObj [("colors", JArr [JStr "red"]); ("sizes", JArr [JNum 7])] in
  rawProduct p
  ∧ ∃ q,
      productsAPI_getAll (HttpResponse 200 (JObj [("products", JArr [p])]))
      = Ok (JObj [("data", JObj [("success", JBool true);
                                ("products", JArr [q])])])
      ∧ getOpt q "sizes" = JArr [JNum 7]
      ∧ getOpt q "sizes" ≠ JArr [JObj [("value", JNum 7)]].
Proof.
  split.
  - eexists _, _, _. split; [reflexivity|]. split; [reflexivity|].
    split; [reflexivity|]. by repeat constructor.
  - eexists. split; [reflexivity|]. split; [reflexivity|discriminate].
Qed.
Example getAll_scenario :
  productsAPI_getAll
    (HttpResponse 200
      (JObj [("products",
        JArr [JObj [("colors", JArr [JStr "red"; JObj [("value", JStr "blue")]]);
                    ("sizes", JArr [JStr "7"; JObj [("value", JStr "8")]])]])]))
  = Ok (JObj [("data", JObj [("success", JBool true);
        ("products",
          JArr [JObj [("colors", JArr [JStr "red"; JStr "blue"]);
                      ("sizes", JArr [JObj [("value", JStr "7")];
                                      JObj [("value", JStr "8")]]);
                      ("image", JUndefined)]])])]).
Proof. reflexivity. Qed.

(** ** Idempotence of the normalization *)

Lemma pretty_N_char_digit (x : N) : Codec.isDigit (pretty_N_char x) = true.
Proof. unfold pretty_N_char. by repeat case_match. Qed.

Lemma pretty_N_go_digits (x : N) (s : string) :
  allDigits s = true → allDigits (pretty_N_go x s) = true.
Proof.
  revert s. induction (N.lt_wf_0 x) as [x _ IH]; intros s Hs.
  assert (x = 0 ∨ 0 < x)%N as [->|Hx] by lia.
  - by rewrite pretty_N_go_0.
  - rewrite pretty_N_go_step by done. apply IH.
    + by apply N.div_lt.
    + unfold allDigits in *. simpl. by rewrite pretty_N_char_digit, Hs.
Qed.

Lemma pretty_nat_digits (i : nat) : allDigits (pretty i) = true.
Proof.
  unfold pretty, pretty_nat, pretty, pretty_N.
  case_decide; [done|]. by apply pretty_N_go_digits.
Qed.

Lemma ownProp_indexed (k : string) (xs : list jsval) :
  allDigits k = false → ownProp k (indexed xs) = None.
Proof.
  intros Hk. unfold indexed.
  cut (∀ g : nat → string, (∀ i, allDigits (g i) = true) →
         ownProp k (imap (λ i x, (g i, x)) xs) = None).
  { intros H. apply (H pretty), pretty_nat_digits. }
  induction xs as [|x xs IH]; intros g Hg; simpl; [done|].
  destruct (String.eqb_spec k (g 0)) as [->|_].
  - by rewrite Hg in Hk.
  - apply (IH (g ∘ S)). intros i. apply Hg.
Qed.

(** Reading a property that is not an index from the spread entries of a
    value is reading it from the value. *)
Lemma ownEntries_getOpt (p : jsval) (k : string) :
  allDigits k = false →
  default JUndefined (ownProp k (ownEntries p)) = getOpt p k.
Proof.
  intros Hk. destruct p; simpl; try done; by rewrite ownProp_indexed.
Qed.

Lemma bind_Ok {A B : Type} (f : A → result B) (a : A) :
  (x ← Ok a; f x) = f a.
Proof. done. Qed.

Lemma bind_inv {A B : Type} (f : A → result B) (r : result A) (b : B) :
  (x ← r; f x) = Ok b → ∃ a, r = Ok a ∧ f a = Ok b.
Proof. destruct r as [a|e]; [by exists a|discriminate]. Qed.

Lemma normalizeProduct_inv (p q : jsval) :
  normalizeProduct p = Ok q →
  ∃ colors sizes,
    normColors (getOpt p "colors") = Ok colors
    ∧ normSizes (getOpt p "sizes") = Ok sizes
    ∧ q = JObj (setProp "sizes" sizes
                 (setProp "colors" colors
                   (setProp "image" (getOpt p "main_image") (ownEntries p)))).
Proof.
  intros H.
  assert (Hp : ∀ k, getProp p k = Ok (getOpt p k)).
  { destruct p; try done; discriminate H. }
  unfold normalizeProduct in H. rewrite !Hp, !bind_Ok in H.
  apply bind_inv in H as (colors & Hc & H). rewrite bind_Ok in H.
  apply bind_inv in H as (sizes & Hs & H).
  injection H as <-. by exists colors, sizes.
Qed.

Lemma normColors_stable (pc colors : jsval) :
  normColors pc = Ok colors →
  (∀ cs, colors = JArr cs → Forall (λ c, isString c = true) cs) →
  normColors colors = Ok colors.
Proof.
  unfold normColors. destruct (hasMap pc) eqn:Hmap.
  - destruct pc as [| | | | |xs|fs]; try discriminate. simpl.
    destruct (mapM colorOf xs) as [cs|] eqn:Hcs; [|discriminate].
    simpl. intros [= <-] Hplain. simpl.
    rewrite mapM_fixed; [done|].
    eapply Forall_impl; [by apply Hplain|].
    intros c Hc. by destruct c.
  - unfold orElse. destruct (truthy pc) eqn:Ht.
    + intros [= <-] _. by rewrite Hmap, Ht.
    + by intros [= <-] _.
Qed.

Lemma normSizes_stable (ps sizes : jsval) :
  normSizes ps = Ok sizes → normSizes sizes = Ok sizes.
Proof.
  unfold normSizes. destruct (hasMap ps) eqn:Hmap.
  - destruct ps as [| | | | |xs|fs]; try discriminate. simpl.
    rewrite mapM_total. simpl. intros [= <-]. simpl.
    rewrite mapM_total. simpl. f_equal. f_equal.
    rewrite <- list_fmap_compose. apply list_fmap_ext.
    intros _ s _. apply sizeOf_idempotent.
  - unfold orElse. destruct (truthy ps) eqn:Ht.
    + intros [= <-]. by rewrite Hmap, Ht.
    + by intros [= <-].
Qed.

Lemma normalizeProduct_fixed (fs : list (string * jsval)) :
  normalizedRecord fs → normalizeProduct (JObj fs) = Ok (JObj fs).
Proof.
  intros (Himg & (cs & Hc & Hcs) & (ss & Hs & Hss)).
  unfold normalizeProduct. simpl. rewrite Hc, Hs. simpl.
  unfold normColors, normSizes. simpl.
  rewrite (mapM_fixed colorOf cs)
    by (eapply Forall_impl; [exact Hcs|]; by intros []).
  assert (Hfix : sizeOf <$> ss = ss).
  { clear Hs. induction Hss as [|s ss (fs' & v & -> & _) _ IH]; [done|].
    by rewrite fmap_cons, IH. }
  simpl. rewrite mapM_total, Hfix. simpl.
  by rewrite (setProp_same "image"), (setProp_same "colors"),
    (setProp_same "sizes").
Qed.

Lemma normalizeProduct_twice (p q : jsval) :
  normalizeProduct p = Ok q → plainColors q → normalizeProduct q = Ok q.
Proof.
  intros Hq Hplain.
  destruct (normalizeProduct_inv p q Hq) as (colors & sizes & Hc & Hs & ->).
  set (fs := setProp "sizes" sizes _) in *.
  assert (Himg : ownProp "image" fs = Some (getOpt p "main_image")).
  { subst fs.
    by rewrite ownProp_setProp_ne, ownProp_setProp_ne, ownProp_setProp_eq. }
  assert (Hcol : ownProp "colors" fs = Some colors).
  { subst fs. by rewrite ownProp_setProp_ne, ownProp_setProp_eq. }
  assert (Hsiz : ownProp "sizes" fs = Some sizes).
  { subst fs. by rewrite ownProp_setProp_eq. }
  assert (Hmain : default JUndefined (ownProp "main_image" fs)
                  = getOpt p "main_image").
  { subst fs. rewrite !ownProp_setProp_ne by done.
    by apply ownEntries_getOpt. }
  unfold normalizeProduct. simpl. rewrite Hmain, Hcol, Hsiz. simpl.
  rewrite (normColors_stable _ _ Hc). 2:{
    intros cs ->. apply Hplain. simpl. by rewrite Hcol. }
  simpl. rewrite (normSizes_stable _ _ Hs). simpl.
  by rewrite (setProp_same "image"), (setProp_same "colors"),
    (setProp_same "sizes").
Qed.

(** C2 (amended).  The normalization is idempotent on its normal forms: a
    record in normal form is returned as it is; normalizing the result of a
    normalization whose colors are plain strings returns that result again;
    so for every raw product whose colors are bare strings or objects
    holding a string [value], normalizing twice gives what normalizing once
    gives. *)
Theorem normalizeProduct_idempotent :
  (∀ fs, normalizedRecord fs → normalizeProduct (JObj fs) = Ok (JObj fs))
  ∧ (∀ p q, normalizeProduct p = Ok q → plainColors q →
            normalizeProduct q = Ok q)
  ∧ (∀ p, rawProduct p →
          (∀ cs, getOpt p "colors" = JArr cs →
                 Forall (λ c, isString c = true
                              ∨ isString (getOpt c "value") = true) cs) →
          ∃ q, normalizeProduct p = Ok q ∧ normalizeProduct q = Ok q).
Proof.
  split; [exact normalizeProduct_fixed|]. split; [exact normalizeProduct_twice|].
  intros p Hraw Hcolors.
  destruct (normalizeProduct_raw p Hraw)
    as (q & Hq & cs & ss & cs' & ss' & Hc & _ & _ & Hc' & _ & _ & _ & _
        & Hplain & _).
  exists q. split; [done|]. apply (normalizeProduct_twice p q Hq).
  intros cs0 Hcs0. rewrite Hc' in Hcs0. injection Hcs0 as <-.
  by apply Hplain, Hcolors.
Qed.

(** The scenario of the specification, normalized once and then again. *)
Lemma normalizeProduct_idempotent_witness :
  let p := JObj [("main_image", JStr "/img/1.png");
                 ("colors", JArr [JStr "red"; JObj [("value", JStr "blue")]]);
                 ("sizes", JArr [JStr "7"; JObj [("value", JStr "8")]])] in
  let fs := [("main_image", JStr "/img/1.png");
             ("colors", JArr [JStr "red"; JStr "blue"]);
             ("sizes", JArr [JObj [("value", JStr "7")];
                             JObj [("value", JStr "8")]]);
             ("image", JStr "/img/1.png")] in
  normalizedRecord fs
  ∧ normalizeProduct (JObj fs) = Ok (JObj fs)
  ∧ normalizeProduct p = Ok (JObj fs)
  ∧ plainColors (JObj fs)
  ∧ rawProduct p
  ∧ ∃ q, normalizeProduct p = Ok q ∧ normalizeProduct q = Ok q.
Proof.
  intros p fs.
  assert (Hn : normalizedRecord fs).
  { split; [reflexivity|]. split.
    - eexists. split; [reflexivity|]. by repeat constructor.
    - eexists. split; [reflexivity|].
      repeat constructor; eexists _, _; (split; reflexivity). }
  assert (Hp : normalizeProduct p = Ok (JObj fs)) by reflexivity.
  assert (Hplain : plainColors (JObj fs)).
  { intros cs [= <-]. by repeat constructor. }
  assert (Hraw : rawProduct p).
  { eexists _, _, _. split; [reflexivity|]. split; [reflexivity|].
    split; [reflexivity|]. by repeat constructor. }
  destruct normalizeProduct_idempotent as (Hfixed & Htwice & Hrawtwice).
  split; [exact Hn|]. split; [exact (Hfixed fs Hn)|].
  split; [exact Hp|]. split; [exact Hplain|]. split; [exact Hraw|].
  apply (Hrawtwice p Hraw).
  intros cs [= <-]. constructor; [by left|]. constructor; [by right|].
  constructor.
Defined.

(** C2 as stated fails on a raw product: a color sent as [{value: 7}]
    becomes [7] in the first pass and [undefined] in the second, so
    normalizing twice is not normalizing once. *)
Lemma normalize_twice_differs :
  let p := JObj [("colors", JArr [JObj [("value", JNum 7)]]);
                 ("sizes", JArr [])] in
  let q1 := JObj [("colors", JArr [JNum 7]); ("sizes", JArr []);
                  ("image", JUndefined)] in
  let q2 := JObj [("colors", JArr [JUndefined]); ("sizes", JArr []);
                  ("image", JUndefined)] in
  rawProduct p
  ∧ normalizeProduct p = Ok q1
  ∧ normalizeProduct q1 = Ok q2
  ∧ normalizeProduct q1 ≠ Ok q1
  ∧ normalizeProduct q2 = Throw TypeError.
Proof.
  split.
  - eexists _, _, _. split; [reflexivity|]. split; [reflexivity|].
    split; [reflexivity|]. by repeat constructor.
  - split; [reflexivity|]. split; [reflexivity|].
    split; [discriminate|reflexivity].
Qed.

(** ** Derived colors and sizes *)

(** C3, on the code: a color or size that the server sends as a [{value}]
    object is keyed by the object itself, so a value repeated across
    products as an object, or once as an object and once as a bare string,
    appears more than once in the derived enumeration. *)
Theorem enumeration_keeps_repeated_objects :
  let response :=
    HttpResponse 200
      (JObj [("products",
        JArr [JObj [("colors", JArr [JObj [("value", JStr "blue")]]);
                    ("sizes", JArr [JObj [("value", JStr "8")]])];
              JObj [("colors", JArr [JStr "blue";
                                     JObj [("value", JStr "blue")]]);
                    ("sizes", JArr [JStr "8";
                                    JObj [("value", JStr "8")]])]])]) in
  colorsAPI_getAll response
  = Ok (JObj [("data", JObj [("colors",
         JArr [idValue (JObj [("value", JStr "blue")]);
               idValue (JStr "blue");
               idValue (JObj [("value", JStr "blue")])])])])
  ∧ sizesAPI_getAll response
  = Ok (JObj [("data", JObj [("sizes",
         JArr [idValue (JObj [("value", JStr "8")]);
               idValue (JStr "8");
               idValue (JObj [("value", JStr "8")])])])]).
Proof. split; reflexivity. Qed.

(** ** What the enumerations do deduplicate *)

Lemma sameValueZero_primitive (a b : node) :
  isPrimitive (val a) = true → isPrimitive (val b) = true →
  sameValueZero a b = true ↔ val a = val b.
Proof.
  unfold sameValueZero.
  destruct (val a) as [| |x|x|x| |], (val b) as [| |y|y|y| |];
    simpl; try done; intros _ _.
  - rewrite Bool.eqb_true_iff. split; congruence.
  - rewrite Z.eqb_eq. split; congruence.
  - rewrite String.eqb_eq. split; congruence.
Qed.

Lemma existsb_sameValueZero (k : node) (s : list node) :
  Forall (λ k', isPrimitive (val k') = true) s →
  isPrimitive (val k) = true →
  existsb (λ k', sameValueZero k' k) s = true ↔ val k ∈ val <$> s.
Proof.
  intros Hs Hk. rewrite existsb_exists, list_elem_of_fmap. split.
  - intros (k' & Hin & Heq). exists k'. split; [|by apply list_elem_of_In].
    symmetry. apply sameValueZero_primitive; [|done..].
    rewrite Forall_forall in Hs. by apply Hs, list_elem_of_In.
  - intros (k' & Heq & Hin). exists k'. split; [by apply list_elem_of_In|].
    apply sameValueZero_primitive; [|done..].
    rewrite Forall_forall in Hs. by apply Hs.
Qed.

Lemma newSet_primitive (ns s : list node) :
  Forall (λ k, isPrimitive (val k) = true) ns →
  Forall (λ k, isPrimitive (val k) = true) s →
  NoDup (val <$> s) →
  NoDup (val <$> foldl (λ s' k, setAdd k s') s ns)
  ∧ Forall (λ k, isPrimitive (val k) = true) (foldl (λ s' k, setAdd k s') s ns)
  ∧ ∀ v, v ∈ val <$> foldl (λ s' k, setAdd k s') s ns
         ↔ v ∈ val <$> s ∨ v ∈ val <$> ns.
Proof.
  intros Hns. revert s.
  induction Hns as [|k ns Hk _ IH]; intros s Hs Hnd; simpl.
  - split; [done|]. split; [done|]. intros v. rewrite elem_of_nil. tauto.
  - pose proof (existsb_sameValueZero k s Hs Hk) as Hex.
    unfold setAdd at 2 4 6. destruct (existsb _ s) eqn:E.
    + destruct (IH s Hs Hnd) as (H1 & H2 & H3).
      split; [done|]. split; [done|].
      intros v. rewrite H3, elem_of_cons.
      assert (val k ∈ val <$> s) by by apply Hex.
      split; [tauto|]. intros [?|[->|?]]; tauto.
    + assert (Hnot : val k ∉ val <$> s).
      { intros Hin. apply Hex in Hin. congruence. }
      destruct (IH (s ++ [k])) as (H1 & H2 & H3).
      * apply Forall_app. split; [done|]. by constructor.
      * rewrite fmap_app. apply NoDup_app. split; [done|]. split.
        -- intros v Hv Hv'. apply list_elem_of_singleton in Hv'. by subst.
        -- apply NoDup_singleton.
      * split; [done|]. split; [done|].
        intros v. rewrite H3, fmap_app, elem_of_app, elem_of_cons.
        simpl. rewrite list_elem_of_singleton. tauto.
Qed.

Lemma mapSet_keys (k : node) (v : jsval) (m : list (node * jsval)) :
  fst <$> mapSet k v m = setAdd k (fst <$> m).
Proof.
  unfold setAdd. induction m as [|[k' v'] m IH]; [done|].
  cbn [mapSet]. rewrite fmap_cons. cbn [existsb fst].
  destruct (sameValueZero k' k); [by rewrite fmap_cons|].
  rewrite fmap_cons, IH. cbn [orb fst]. by destruct (existsb _ _).
Qed.

Lemma mapSet_values (k : node) (m : list (node * jsval)) :
  isPrimitive (val k) = true →
  Forall (λ e, isPrimitive (val e.1) = true ∧ e.2 = idValue (val e.1)) m →
  Forall (λ e, isPrimitive (val e.1) = true ∧ e.2 = idValue (val e.1))
         (mapSet k (idValue (val k)) m).
Proof.
  intros Hk. induction 1 as [|[k' v'] m [Hp Hv] Hm IH]; simpl.
  - by repeat constructor.
  - destruct (sameValueZero k' k) eqn:E.
    + constructor; [|done]. simpl in *. split; [done|].
      apply sameValueZero_primitive in E; [|done..]. by rewrite E.
    + by constructor.
Qed.

Lemma nodes_val (xs : list jsval) : val <$> nodes xs = xs.
Proof.
  unfold nodes. rewrite fmap_imap.
  rewrite (imap_ext _ (const id)); [|done].
  by rewrite imap_const, list_fmap_id.
Qed.

Lemma colorEntry_key (k : node) : colorEntry k = (k, idValue (val k)).
Proof. unfold colorEntry. by destruct (isString _). Qed.

Lemma newMap_entries (ns : list node) (m : list (node * jsval)) :
  Forall (λ k, isPrimitive (val k) = true) ns →
  Forall (λ e, isPrimitive (val e.1) = true ∧ e.2 = idValue (val e.1)) m →
  Forall (λ e, isPrimitive (val e.1) = true ∧ e.2 = idValue (val e.1))
         (foldl (λ m' e, mapSet e.1 e.2 m') m (colorEntry <$> ns))
  ∧ fst <$> foldl (λ m' e, mapSet e.1 e.2 m') m (colorEntry <$> ns)
    = foldl (λ s' k, setAdd k s') (fst <$> m) ns.
Proof.
  intros Hns. revert m. induction Hns as [|k ns Hk _ IH]; intros m Hm.
  - done.
  - rewrite fmap_cons. cbn [foldl]. rewrite colorEntry_key. cbn [fst snd].
    destruct (IH (mapSet k (idValue (val k)) m)) as [H1 H2].
    { by apply mapSet_values. }
    split; [done|]. by rewrite H2, mapSet_keys.
Qed.

(** X23.  On bare values (strings, numbers) both enumerations list every
    distinct value exactly once, as [{id, value}]. *)
Lemma enumeration_of_bare_values (xs : list jsval) :
  Forall (λ x, isPrimitive x = true) xs →
  ∃ ys, uniqueColors xs = idValue <$> ys
        ∧ uniqueSizes xs = idValue <$> ys
        ∧ NoDup ys
        ∧ ∀ x, x ∈ ys ↔ x ∈ xs.
Proof.
  intros Hxs.
  assert (Hns : Forall (λ k, isPrimitive (val k) = true) (nodes xs)).
  { apply (Forall_fmap val (λ v, isPrimitive v = true)). by rewrite nodes_val. }
  destruct (newSet_primitive (nodes xs) [] Hns) as (Hnd & _ & Hin);
    [constructor|constructor|].
  destruct (newMap_entries (nodes xs) [] Hns) as (Hm & Hkeys); [constructor|].
  exists (val <$> newSet (nodes xs)). split; [|split; [|split]].
  - unfold uniqueColors, newMap.
    rewrite <- list_fmap_compose.
    change (newSet (nodes xs)) with (foldl (λ s' k, setAdd k s') [] (nodes xs)).
    change (@nil node) with (fst <$> @nil (node * jsval)).
    rewrite <- Hkeys, <- list_fmap_compose.
    apply Forall_fmap_ext_1. eapply Forall_impl; [exact Hm|].
    by intros [k v] [_ ->].
  - unfold uniqueSizes. by rewrite <- list_fmap_compose.
  - exact Hnd.
  - intros x. unfold newSet. rewrite Hin, nodes_val, fmap_nil, elem_of_nil.
    tauto.
Qed.

(** ** The 401 handler *)

Lemma onRejected_401 (error : exn) (w : world) :
  errorStatus error = Some 401%Z →
  onRejected error w
  = World (delete USER_KEY (delete TOKEN_KEY (storage w))) "/login"
          (journal w ++ clearAndRedirect).
Proof.
  intros H. unfold onRejected. rewrite decide_True by done.
  unfold assignHref, removeItem, clearAndRedirect. simpl.
  by rewrite <- !app_assoc.
Qed.

Lemma onRejected_other (error : exn) (w : world) :
  errorStatus error ≠ Some 401%Z → onRejected error w = w.
Proof. intros H. unfold onRejected. by rewrite decide_False. Qed.

Lemma onRejectedAll_journal (errors : list exn) (w : world) :
  journal (onRejectedAll errors w)
  = journal w
    ++ concat ((λ e, if is401 e then clearAndRedirect else []) <$> errors).
Proof.
  unfold onRejectedAll. revert w.
  induction errors as [|e errors IH]; intros w; simpl.
  - by rewrite app_nil_r.
  - rewrite IH. unfold is401.
    destruct (decide (errorStatus e = Some 401%Z)) as [H|H].
    + rewrite bool_decide_eq_true_2 by done.
      rewrite (onRejected_401 _ _ H). simpl. by rewrite <- app_assoc.
    + rewrite bool_decide_eq_false_2 by done.
      by rewrite (onRejected_other _ _ H).
Qed.

Lemma onRejectedAll_state (errors : list exn) (w : world) :
  Exists (λ e, errorStatus e = Some 401%Z) errors →
  storage (onRejectedAll errors w) = delete USER_KEY (delete TOKEN_KEY (storage w))
  ∧ href (onRejectedAll errors w) = "/login".
Proof.
  unfold onRejectedAll.
  cut (∀ w, (storage (foldl (λ w' e, onRejected e w') w errors)
             = delete USER_KEY (delete TOKEN_KEY (storage w))
             ∧ href (foldl (λ w' e, onRejected e w') w errors) = "/login")
            ∨ (Forall (λ e, errorStatus e ≠ Some 401%Z) errors
               ∧ foldl (λ w' e, onRejected e w') w errors = w)).
  { intros H Hex. destruct (H w) as [?|[Hall _]]; [done|].
    apply Exists_exists in Hex as (e & He & H401).
    rewrite Forall_forall in Hall. by destruct (Hall e He). }
  induction errors as [|e errors IH]; intros w'; simpl.
  - right. by split.
  - destruct (decide (errorStatus e = Some 401%Z)) as [H|H].
    + left. rewrite (onRejected_401 _ _ H).
      destruct (IH (World (delete USER_KEY (delete TOKEN_KEY (storage w')))
                          "/login" (journal w' ++ clearAndRedirect)))
        as [[-> ->]|[_ ->]]; simpl.
      * split; [|done].
        apply map_eq. intros k. unfold USER_KEY, TOKEN_KEY.
        rewrite !lookup_delete. repeat case_decide; done.
      * done.
    + rewrite (onRejected_other _ _ H).
      destruct (IH w') as [?|[Hall ->]]; [by left|].
      right. split; [by constructor|done].
Qed.

(** C4 (amended).  The handler runs once for each rejected response: on a
    401 it removes both entries and then assigns the login location, before
    the rejection goes on to the caller; on any other outcome it leaves the
    store and the location alone.  A batch of rejected responses therefore
    clears and redirects once per 401 it contains, and the store and
    location it leaves are those left by a single run. *)
Theorem response_interceptor_401 (errors : list exn) (error : exn)
    (response : httpResponse) (w : world) :
  (errorStatus error = Some 401%Z →
     responseInterceptor (Throw error) w
     = (Throw error,
        World (delete USER_KEY (delete TOKEN_KEY (storage w))) "/login"
              (journal w ++ clearAndRedirect)))
  ∧ (errorStatus error ≠ Some 401%Z →
       responseInterceptor (Throw error) w = (Throw error, w))
  ∧ responseInterceptor (Ok response) w = (Ok response, w)
  ∧ journal (onRejectedAll errors w)
    = journal w
      ++ concat ((λ e, if is401 e then clearAndRedirect else []) <$> errors)
  ∧ (Exists (λ e, errorStatus e = Some 401%Z) errors →
       storage (onRejectedAll errors w)
       = delete USER_KEY (delete TOKEN_KEY (storage w))
       ∧ href (onRejectedAll errors w) = "/login").
Proof.
  split; [|split; [|split; [|split]]].
  - intros H. simpl. by rewrite (onRejected_401 _ _ H).
  - intros H. simpl. by rewrite (onRejected_other _ _ H).
  - done.
  - apply onRejectedAll_journal.
  - apply onRejectedAll_state.
Qed.

(** A 401 and a 500 through the handler, and a batch holding both. *)
Lemma response_interceptor_401_witness :
  let e401 := AxiosError (Some (HttpResponse 401 JNull)) in
  let e500 := AxiosError (Some (HttpResponse 500 JNull)) in
  let ok := HttpResponse 200 JNull in
  let w := World {[TOKEN_KEY := "t1"; USER_KEY := "{}"]} "/products" [] in
  (errorStatus e401 = Some 401%Z
   ∧ Exists (λ e, errorStatus e = Some 401%Z) [e500; e401]
   ∧ responseInterceptor (Throw e401) w
     = (Throw e401,
        World (delete USER_KEY (delete TOKEN_KEY (storage w))) "/login"
              (journal w ++ clearAndRedirect))
   ∧ storage (onRejectedAll [e500; e401] w)
     = delete USER_KEY (delete TOKEN_KEY (storage w)))
  ∧ (errorStatus e500 ≠ Some 401%Z
     ∧ responseInterceptor (Throw e500) w = (Throw e500, w)).
Proof.
  intros e401 e500 ok w.
  assert (H401 : errorStatus e401 = Some 401%Z) by reflexivity.
  assert (H500 : errorStatus e500 ≠ Some 401%Z) by discriminate.
  assert (Hex : Exists (λ e, errorStatus e = Some 401%Z) [e500; e401]).
  { apply Exists_cons_tl, Exists_cons_hd. reflexivity. }
  pose proof (response_interceptor_401 [e500; e401] e401 ok w)
    as (Ha & _ & _ & _ & Hb).
  pose proof (response_interceptor_401 [] e500 ok w) as (_ & Hc & _).
  split.
  - split; [exact H401|]. split; [exact Hex|]. split; [exact (Ha H401)|].
    exact (proj1 (Hb Hex)).
  - split; [exact H500|exact (Hc H500)].
Defined.

(** C4 as stated fails on a batch: two 401 responses make the handler clear
    the store twice and assign the location twice, not once. *)
Lemma two_401_clear_and_redirect_twice :
  let e401 := AxiosError (Some (HttpResponse 401 JNull)) in
  let w := World {[TOKEN_KEY := "t1"; USER_KEY := "{}"]} "/products" [] in
  journal (onRejectedAll [e401; e401] w)
  = [RemoveItem TOKEN_KEY; RemoveItem USER_KEY; SetHref "/login";
     RemoveItem TOKEN_KEY; RemoveItem USER_KEY; SetHref "/login"]
  ∧ redirectCount (journal (onRejectedAll [e401; e401] w)) = 2
  ∧ removeCount TOKEN_KEY (journal (onRejectedAll [e401; e401] w)) = 2
  ∧ removeCount USER_KEY (journal (onRejectedAll [e401; e401] w)) = 2
  ∧ redirectCount (journal (onRejectedAll [e401; e401] w)) ≠ 1.
Proof. repeat split; try reflexivity. discriminate. Qed.

(** ** Login *)

Section Login.

Variable JSON_stringify : jsval → string.
Variable ToString : jsval → string.

Lemma loginTry_gate (response : httpResponse) (w : world) (a : authState) :
  isAdminRole (getOpt (getOpt (data response) "user") "role") = false →
  match loginTry JSON_stringify ToString (Ok response) w a with
  | Ok outcome => ∃ msg, outcome = (Failure msg, w, a)
  | Throw error => errorStatus error = None ∧ errorMessage error = JUndefined
  end.
Proof.
  intros Hrole. unfold loginTry. rewrite bind_Ok.
  destruct (data response) as [| | | | | |fs] eqn:Hd; simpl in *;
    try done; try by eexists.
  destruct (default JUndefined (ownProp "user" fs)) as [| | | | | |ufs];
    simpl in *; try done; try by eexists.
  rewrite Hrole. by eexists.
Qed.

(** C5.  [login] is atomic on failure.  When the endpoint answers with
    success but the user's role is not ADMIN, the result is a failure and
    neither the store nor the state changes; the message is the access
    denial when the response names a user and ['Login failed'] when the
    body or the user is missing.  When the request is rejected with a
    response, the result is a failure carrying the [error] of the response
    body when that is truthy and ['Login failed'] otherwise, the state is
    unchanged, and the world is unchanged too unless the status is 401: then
    the client's own handler removes both entries and assigns the login
    location.  Without a response the failure is ['Login failed'] and nothing
    changes.  No failure writes to the store. *)
Theorem login_failure_atomic (server : requestConfig → option httpResponse)
    (email password : string) (w : world) (a : authState) :
  let out := login JSON_stringify ToString server email password w a in
  let reply := settle (server (loginRequest email password w)) in
  (∀ response,
     reply = Ok response →
     isAdminRole (getOpt (getOpt (data response) "user") "role") = false →
     out = (Failure
              (JStr (if nullish (data response)
                        || nullish (getOpt (data response) "user")
                     then "Login failed"
                     else "Access denied. Admin privileges required.")),
            w, a))
  ∧ (∀ response,
       reply = Throw (AxiosError (Some response)) →
       let message := getOpt (data response) "error" in
       out.1.1 = Failure (if truthy message then message
                          else JStr "Login failed")
       ∧ out.2 = a
       ∧ out.1.2
         = if decide (status response = 401%Z)
           then World (delete USER_KEY (delete TOKEN_KEY (storage w)))
                      "/login" (journal w ++ clearAndRedirect)
           else w)
  ∧ (reply = Throw (AxiosError None) →
     out = (Failure (JStr "Login failed"), w, a))
  ∧ (∀ error,
       reply = Throw error →
       out.2 = a
       ∧ storage out.1.2 ⊆ storage w
       ∧ (∃ j, journal out.1.2 = journal w ++ j ∧ ∀ k v, SetItem k v ∉ j)
       ∧ (errorStatus error ≠ Some 401%Z → out.1.2 = w)).
Proof.
  intros out reply. subst out.
  unfold login, adminAPI_login, adminAxios. fold (loginRequest email password w).
  fold reply.
  assert (Hthrow : ∀ error,
            reply = Throw error →
            match loginTry JSON_stringify ToString
                    (responseInterceptor reply w).1 (responseInterceptor reply w).2 a
            with
            | Ok outcome => outcome
            | Throw error' =>
                (loginCatch error', (responseInterceptor reply w).2, a)
            end = (loginCatch error, onRejected error w, a)).
  { intros error ->. reflexivity. }
  assert (Hpair : ∀ r : result httpResponse * world,
            (let '(settled, w0) := r in
             match loginTry JSON_stringify ToString settled w0 a with
             | Ok outcome => outcome
             | Throw error' => (loginCatch error', w0, a)
             end)
            = match loginTry JSON_stringify ToString r.1 r.2 a with
              | Ok outcome => outcome
              | Throw error' => (loginCatch error', r.2, a)
              end) by (by intros [? ?]).
  rewrite Hpair. clear Hpair.
  split; [|split; [|split]].
  - intros response Hs Hrole. rewrite Hs.
    unfold responseInterceptor. cbn [fst snd]. unfold loginTry.
    rewrite bind_Ok.
    destruct (data response) as [| | | | | |fs] eqn:Hd; simpl in *;
      try done.
    destruct (default JUndefined (ownProp "user" fs)) as [| | | | | |ufs];
      simpl in *; try done.
    by rewrite Hrole.
  - intros response Hs. rewrite (Hthrow _ Hs). cbn [fst snd].
    split; [reflexivity|]. split; [done|].
    destruct (decide (status response = 401%Z)) as [H|H].
    + by apply onRejected_401; simpl; f_equal.
    + apply onRejected_other. simpl. congruence.
  - intros Hs. rewrite (Hthrow _ Hs). by rewrite onRejected_other.
  - intros error Hs. rewrite (Hthrow _ Hs). cbn [fst snd].
    split; [done|].
    destruct (decide (errorStatus error = Some 401%Z)) as [H|H].
    + rewrite (onRejected_401 _ _ H). simpl.
      split; [|split; [|done]].
      * etrans; apply delete_subseteq.
      * exists clearAndRedirect. split; [done|].
        intros k v Hin. unfold clearAndRedirect in Hin.
        by repeat (apply elem_of_cons in Hin as [?|Hin]; [done|]);
          apply elem_of_nil in Hin.
    + rewrite (onRejected_other _ _ H). simpl.
      split; [done|]. split; [|done].
      exists []. split; [by rewrite app_nil_r|].
      intros k v Hin. by apply elem_of_nil in Hin.
Qed.

End Login.

(** A customer's credentials on an empty store, then wrong credentials
    answered 401 while an earlier session is still stored. *)
Lemma login_failure_atomic_witness :
  let w := World ∅ "/login" [] in
  let stored := World {[TOKEN_KEY := "t0"; USER_KEY := "{}"]} "/products" [] in
  let customer (_ : requestConfig) :=
    Some (HttpResponse 200
            (JObj [("token", JStr "t2");
                   ("user", JObj [("id", JNum 2); ("email", JStr "c@x.com");
                                  ("role", JStr "CUSTOMER")])])) in
  let refused (_ : requestConfig) :=
    Some (HttpResponse 401 (JObj [("error", JStr "Invalid credentials")])) in
  let denied :=
    login Codec.stringify Codec.toString customer "c@x.com" "pw" w initialState in
  let failed :=
    login Codec.stringify Codec.toString refused "a@x.com" "no" stored
          initialState in
  denied = (Failure (JStr "Access denied. Admin privileges required."),
            w, initialState)
  ∧ failed.1.1 = Failure (JStr "Invalid credentials")
  ∧ failed.2 = initialState
  ∧ failed.1.2 = World ∅ "/login" clearAndRedirect.
Proof.
  intros w stored customer refused denied failed.
  pose proof (login_failure_atomic Codec.stringify Codec.toString
                customer "c@x.com" "pw" w initialState) as [Hgate _].
  pose proof (login_failure_atomic Codec.stringify Codec.toString
                refused "a@x.com" "no" stored initialState) as (_ & Hfail & _).
  split.
  - exact (Hgate _ eq_refl eq_refl).
  - destruct (Hfail _ eq_refl) as (Hmsg & Ha & Hw).
    split; [exact Hmsg|]. split; [exact Ha|].
    exact (eq_trans Hw eq_refl).
Defined.

(** ** Restoring a session *)

Section Restore.

Variable JSON_parse : string → option jsval.

Lemma itemTruthy_Some (s : string) : s ≠ "" → itemTruthy (Some s) = true.
Proof. intros H. simpl. by destruct (String.eqb_spec s ""). Qed.

Lemma mount_without_session (w : world) :
  itemTruthy (getItem TOKEN_KEY w) && itemTruthy (getItem USER_KEY w) = false →
  mount JSON_parse w = (w, AuthState JNull false).
Proof. intros H. unfold mount, sessionRestore. by rewrite H. Qed.

(** C6.  Corrupt-storage recovery: when both entries are stored and the
    user record does not parse, the mount effect ends without throwing in
    the unauthenticated state, removes both entries and nothing else, and
    every later mount finds no session and changes nothing. *)
Theorem mount_corrupt_user_cleared (w : world) (t u : string) :
  getItem TOKEN_KEY w = Some t → t ≠ "" →
  getItem USER_KEY w = Some u → u ≠ "" →
  JSON_parse u = None →
  phaseOf (mount JSON_parse w).2 = Unauthenticated
  ∧ getItem TOKEN_KEY (mount JSON_parse w).1 = None
  ∧ getItem USER_KEY (mount JSON_parse w).1 = None
  ∧ (∀ k, k ≠ TOKEN_KEY → k ≠ USER_KEY →
          getItem k (mount JSON_parse w).1 = getItem k w)
  ∧ journal (mount JSON_parse w).1
    = journal w ++ [RemoveItem TOKEN_KEY; RemoveItem USER_KEY]
  ∧ mount JSON_parse (mount JSON_parse w).1 = mount JSON_parse w.
Proof.
  intros Ht Hte Hu Hue Hparse.
  assert (Hm : mount JSON_parse w
               = (removeItem USER_KEY (removeItem TOKEN_KEY w),
                  AuthState JNull false)).
  { unfold mount, sessionRestore.
    rewrite Ht, Hu, !itemTruthy_Some by done. simpl. by rewrite Hparse. }
  rewrite Hm. simpl. unfold getItem. simpl.
  split; [done|]. split.
  { by rewrite lookup_delete_ne, lookup_delete_eq. }
  split; [by rewrite lookup_delete_eq|].
  split.
  { intros k H1 H2. by rewrite !lookup_delete_ne. }
  split; [by rewrite <- app_assoc|].
  apply mount_without_session. unfold getItem. simpl.
  by rewrite lookup_delete_ne, lookup_delete_eq.
Qed.

(** C10.  When exactly one of the two entries is stored, the mount effect
    ends in the unauthenticated state and leaves the store as it found it;
    a token left behind without a user record is still what the request
    interceptor sends as the Bearer header of every request. *)
Theorem mount_keeps_residual_entry (w : world) :
  (is_Some (getItem TOKEN_KEY w) ∧ getItem USER_KEY w = None)
  ∨ (getItem TOKEN_KEY w = None ∧ is_Some (getItem USER_KEY w)) →
  mount JSON_parse w = (w, AuthState JNull false)
  ∧ phaseOf (mount JSON_parse w).2 = Unauthenticated
  ∧ (∀ t config,
       getItem TOKEN_KEY w = Some t → t ≠ "" →
       headers (requestInterceptor (mount JSON_parse w).1 config)
         !! "Authorization" = Some ("Bearer " +:+ t)).
Proof.
  intros Hone.
  assert (Hm : mount JSON_parse w = (w, AuthState JNull false)).
  { apply mount_without_session.
    destruct Hone as [[_ ->]|[-> _]]; simpl; [|done].
    apply andb_false_r. }
  rewrite Hm. simpl. split; [done|]. split; [done|].
  intros t config Ht Hte. unfold requestInterceptor.
  rewrite Ht, itemTruthy_Some by done. simpl.
  apply lookup_insert_eq.
Qed.

End Restore.

(** A store whose user record is cut short, and one holding a token only. *)
Lemma mount_corrupt_user_cleared_witness :
  let w := World {[TOKEN_KEY := "t1"; USER_KEY := "{oops"]} "/products" [] in
  Codec.parse "{oops" = None
  ∧ phaseOf (mount Codec.parse w).2 = Unauthenticated
  ∧ getItem TOKEN_KEY (mount Codec.parse w).1 = None
  ∧ getItem USER_KEY (mount Codec.parse w).1 = None
  ∧ mount Codec.parse (mount Codec.parse w).1 = mount Codec.parse w.
Proof.
  intros w.
  assert (Hparse : Codec.parse "{oops" = None) by reflexivity.
  destruct (mount_corrupt_user_cleared Codec.parse w "t1" "{oops")
    as (H1 & H2 & H3 & _ & _ & H4);
    [reflexivity|discriminate|reflexivity|discriminate|exact Hparse|].
  split; [exact Hparse|]. split; [exact H1|]. split; [exact H2|].
  split; [exact H3|exact H4].
Defined.

Lemma mount_keeps_residual_entry_witness :
  let w := World {[TOKEN_KEY := "t1"]} "/products" [] in
  let config := RequestConfig "get" "/admin/orders" ∅ JUndefined in
  getItem TOKEN_KEY w = Some "t1"
  ∧ getItem USER_KEY w = None
  ∧ mount Codec.parse w = (w, AuthState JNull false)
  ∧ headers (requestInterceptor (mount Codec.parse w).1 config)
      !! "Authorization" = Some "Bearer t1".
Proof.
  intros w config.
  assert (Ht : getItem TOKEN_KEY w = Some "t1") by reflexivity.
  assert (Hu : getItem USER_KEY w = None) by reflexivity.
  destruct (mount_keeps_residual_entry Codec.parse w) as (H1 & _ & H2).
  { left. split; [by exists "t1"|exact Hu]. }
  split; [exact Ht|]. split; [exact Hu|]. split; [exact H1|].
  apply (H2 "t1" config Ht). discriminate.
Defined.

(** ** The request interceptor *)

(** C7.  A token stored under [admin_token] is attached to every outgoing
    request as [Authorization: Bearer <token>], the rest of the request
    being left as it is; without a token the request goes out unchanged.
    The guard [if (token)] reads a missing entry and an empty one alike as
    no token. *)
Theorem requestInterceptor_bearer (w : world) (config : requestConfig) :
  (∀ t, getItem TOKEN_KEY w = Some t → t ≠ "" →
        headers (requestInterceptor w config) !! "Authorization"
        = Some ("Bearer " +:+ t)
        ∧ (∀ h, h ≠ "Authorization" →
                headers (requestInterceptor w config) !! h
                = headers config !! h)
        ∧ method (requestInterceptor w config) = method config
        ∧ url (requestInterceptor w config) = url config
        ∧ body (requestInterceptor w config) = body config)
  ∧ (getItem TOKEN_KEY w = None ∨ getItem TOKEN_KEY w = Some "" →
     requestInterceptor w config = config).
Proof.
  unfold requestInterceptor. split.
  - intros t Ht Hte. rewrite Ht, itemTruthy_Some by done. simpl.
    split; [apply lookup_insert_eq|]. split; [|done].
    intros h Hh. by apply lookup_insert_ne.
  - by intros [-> | ->].
Qed.

Lemma requestInterceptor_bearer_witness :
  let config :=
    RequestConfig "post" "/admin/products"
                  {["Content-Type" := "multipart/form-data"]} JUndefined in
  let w := World {[TOKEN_KEY := "t1"; USER_KEY := "{}"]} "/products" [] in
  let w0 := World ∅ "/login" [] in
  headers (requestInterceptor w config) !! "Authorization" = Some "Bearer t1"
  ∧ headers (requestInterceptor w config) !! "Content-Type"
    = Some "multipart/form-data"
  ∧ requestInterceptor w0 config = config.
Proof.
  intros config w w0.
  destruct (requestInterceptor_bearer w config) as [Hsome _].
  destruct (requestInterceptor_bearer w0 config) as [_ Hnone].
  destruct (Hsome "t1") as (H1 & H2 & _); [reflexivity|discriminate|].
  split; [exact H1|]. split.
  - rewrite H2 by discriminate. reflexivity.
  - apply Hnone. left. reflexivity.
Defined.

(** ** The route guard *)

(** C8.  While the controller is still loading the guard renders the
    spinner and nothing else; once it has resolved, it renders the
    protected content exactly when the state is authenticated, and
    otherwise navigates to the login view, replacing the history entry. *)
Theorem ProtectedRoute_gate (a : authState) :
  (phaseOf a = Unknown → ProtectedRoute a = Spinner)
  ∧ (ProtectedRoute a = Outlet ↔ ∃ user, phaseOf a = Authenticated user)
  ∧ (phaseOf a = Unauthenticated → ProtectedRoute a = Navigate "/login" true)
  ∧ (ProtectedRoute a = Outlet →
     loading a = false ∧ isAuthenticated a = true).
Proof.
  unfold phaseOf, ProtectedRoute.
  destruct (loading a), (isAuthenticated a); repeat split;
    try done; try (by intros [? ?]); by eexists.
Qed.

Lemma ProtectedRoute_gate_witness :
  let user := JObj [("id", JNum 1); ("role", JStr "ADMIN")] in
  ProtectedRoute initialState = Spinner
  ∧ ProtectedRoute (AuthState user false) = Outlet
  ∧ ProtectedRoute (AuthState JNull false) = Navigate "/login" true.
Proof.
  intros user.
  destruct (ProtectedRoute_gate initialState) as (H1 & _).
  destruct (ProtectedRoute_gate (AuthState user false)) as (_ & H2 & _).
  destruct (ProtectedRoute_gate (AuthState JNull false)) as (_ & _ & H3 & _).
  split; [exact (H1 eq_refl)|]. split; [|exact (H3 eq_refl)].
  apply H2. exists user. reflexivity.
Defined.

(** ** The two entries move together *)

Lemma extendsBy_refl (w : world) : extendsBy w w [].
Proof. split; [by rewrite app_nil_r|done]. Qed.

Lemma extendsBy_trans (w1 w2 w3 : world) (j1 j2 : list effect) :
  extendsBy w1 w2 j1 → extendsBy w2 w3 j2 → extendsBy w1 w3 (j1 ++ j2).
Proof.
  intros [Hj1 Hs1] [Hj2 Hs2]. split.
  - by rewrite Hj2, Hj1, app_assoc.
  - unfold replay in *. by rewrite foldl_app, <- Hs1, <- Hs2.
Qed.

Lemma paired_app (j1 j2 : list effect) :
  paired j1 → paired j2 → paired (j1 ++ j2).
Proof. induction 1; simpl; intros; try constructor; auto. Qed.

Lemma paired_replay (j : list effect) (m : gmap string string) :
  paired j → bothOrNeither m → bothOrNeither (replay j m).
Proof.
  intros Hj. revert m. unfold replay.
  induction Hj as [|t u j _ IH|j _ IH|url j _ IH]; intros m Hm; simpl.
  - done.
  - apply IH. unfold bothOrNeither, TOKEN_KEY, USER_KEY.
    rewrite lookup_insert_ne, !lookup_insert_eq by done. by split.
  - apply IH. unfold bothOrNeither, TOKEN_KEY, USER_KEY.
    rewrite lookup_delete_ne, !lookup_delete_eq by done.
    split; by intros [? ?].
  - by apply IH.
Qed.

Lemma clearBoth_extends (w : world) :
  extendsBy w (removeItem USER_KEY (removeItem TOKEN_KEY w))
            [RemoveItem TOKEN_KEY; RemoveItem USER_KEY].
Proof. split; simpl; [by rewrite <- app_assoc|done]. Qed.

Lemma onRejected_extends (error : exn) (w : world) :
  ∃ j, extendsBy w (onRejected error w) j ∧ paired j.
Proof.
  destruct (decide (errorStatus error = Some 401%Z)) as [H|H].
  - exists clearAndRedirect. rewrite (onRejected_401 _ _ H).
    split; [by split|]. by repeat constructor.
  - exists []. rewrite (onRejected_other _ _ H).
    split; [apply extendsBy_refl|constructor].
Qed.

Lemma adminAxios_extends (server : requestConfig → option httpResponse)
    (config : requestConfig) (w : world) :
  ∃ j, extendsBy w (adminAxios server config w).2 j ∧ paired j
       ∧ (∀ response, (adminAxios server config w).1 = Ok response → j = []).
Proof.
  unfold adminAxios, responseInterceptor.
  destruct (settle _) as [response|error]; simpl.
  - exists []. split; [apply extendsBy_refl|]. split; [constructor|done].
  - destruct (onRejected_extends error w) as (j & Hj & Hp).
    exists j. split; [exact Hj|]. split; [exact Hp|]. by intros ? [=].
Qed.

Section Operations.

Variable JSON_parse : string → option jsval.
Variable JSON_stringify : jsval → string.
Variable ToString : jsval → string.

Lemma mount_extends (w : world) :
  ∃ j, extendsBy w (mount JSON_parse w).1 j ∧ paired j.
Proof.
  unfold mount, sessionRestore.
  destruct (itemTruthy _ && itemTruthy _).
  - destruct (JSON_parse _); simpl.
    + exists []. split; [apply extendsBy_refl|constructor].
    + eexists. split; [apply clearBoth_extends|by repeat constructor].
  - exists []. split; [apply extendsBy_refl|constructor].
Qed.

Lemma loginTry_extends (response : httpResponse) (w : world) (a : authState) :
  match loginTry JSON_stringify ToString (Ok response) w a with
  | Ok outcome => ∃ j, extendsBy w outcome.1.2 j ∧ paired j
  | Throw _ => True
  end.
Proof.
  unfold loginTry. rewrite bind_Ok.
  destruct (getProp (data response) "token") as [token|]; [|done].
  rewrite bind_Ok.
  destruct (getProp (data response) "user") as [user|]; [|done].
  rewrite bind_Ok.
  destruct (getProp user "role") as [role|]; [|done].
  rewrite bind_Ok. destruct (isAdminRole role); simpl.
  - exists [SetItem TOKEN_KEY (ToString token);
            SetItem USER_KEY (JSON_stringify user)].
    split; [|by repeat constructor].
    split; simpl; [by rewrite <- app_assoc|done].
  - exists []. split; [apply extendsBy_refl|constructor].
Qed.

Lemma login_extends (server : requestConfig → option httpResponse)
    (email password : string) (w : world) (a : authState) :
  ∃ j, extendsBy w (login JSON_stringify ToString server email password w a).1.2 j
       ∧ paired j.
Proof.
  unfold login, adminAPI_login.
  destruct (adminAxios_extends server
              (RequestConfig "post" "/auth/login" ∅
                 (JObj [("email", JStr email); ("password", JStr password)])) w)
    as (j0 & Hj0 & Hp0 & _).
  destruct (adminAxios _ _ _) as [settled w0]. simpl in Hj0.
  destruct settled as [response|error].
  - pose proof (loginTry_extends response w0 a) as Hl.
    destruct (loginTry _ _ _ _ _) as [outcome|error].
    + destruct Hl as (j1 & Hj1 & Hp1). exists (j0 ++ j1).
      split; [by eapply extendsBy_trans|by apply paired_app].
    + exists j0. by split.
  - exists j0. by split.
Qed.

Lemma step_extends (op : operation) (s : world * authState) :
  ∃ j, extendsBy s.1 (step JSON_parse JSON_stringify ToString op s).1 j
       ∧ paired j.
Proof.
  destruct op as [|server email password| |server config]; simpl.
  - apply mount_extends.
  - destruct (login_extends server email password s.1 s.2) as (j & Hj & Hp).
    destruct (login _ _ _ _ _ _ _) as [[res w'] a']. by exists j.
  - eexists. split; [apply clearBoth_extends|by repeat constructor].
  - destruct (adminAxios_extends server config s.1) as (j & Hj & Hp & _).
    by exists j.
Qed.

(** C9.  Whatever operations run (page loads with session restore, logins,
    logouts, requests through the client with its 401 handler), all they do
    to the store is recorded in a journal in which the token entry and the
    user entry are always written together or removed together; so a store
    holding both entries or neither still does after any run. *)
Theorem session_entries_move_together (ops : list operation)
    (s : world * authState) :
  ∃ j, extendsBy s.1 (run JSON_parse JSON_stringify ToString ops s).1 j
       ∧ paired j
       ∧ (bothOrNeither (storage s.1) →
          bothOrNeither
            (storage (run JSON_parse JSON_stringify ToString ops s).1)).
Proof.
  cut (∃ j, extendsBy s.1 (run JSON_parse JSON_stringify ToString ops s).1 j
            ∧ paired j).
  { intros (j & Hj & Hp). exists j. split; [done|]. split; [done|].
    intros Hm. destruct Hj as [_ ->]. by apply paired_replay. }
  unfold run. revert s. induction ops as [|op ops IH]; intros s; simpl.
  - exists []. split; [apply extendsBy_refl|constructor].
  - destruct (step_extends op s) as (j1 & Hj1 & Hp1).
    destruct (IH (step JSON_parse JSON_stringify ToString op s))
      as (j2 & Hj2 & Hp2).
    exists (j1 ++ j2). split; [by eapply extendsBy_trans|by apply paired_app].
Qed.

End Operations.

(** Page load, an administrator's login, a request answered 401, logout. *)
Lemma session_entries_move_together_witness :
  let adminServer (_ : requestConfig) :=
    Some (HttpResponse 200
            (JObj [("token", JStr "t1");
                   ("user", JObj [("id", JNum 1); ("email", JStr "a@x.com");
                                  ("role", JStr "ADMIN")])])) in
  let expired (_ : requestConfig) := Some (HttpResponse 401 JNull) in
  let ops := [OpMount; OpLogin adminServer "a@x.com" "pw";
              OpRequest expired (RequestConfig "get" "/admin/orders" ∅ JUndefined);
              OpMount; OpLogout] in
  let s := (World ∅ "/login" [], initialState) in
  bothOrNeither (storage s.1)
  ∧ bothOrNeither
      (storage (run Codec.parse Codec.stringify Codec.toString ops s).1).
Proof.
  intros adminServer expired ops s.
  assert (H0 : bothOrNeither (storage s.1)).
  { split; intros [x Hx]; discriminate Hx. }
  destruct (session_entries_move_together
              Codec.parse Codec.stringify Codec.toString ops s)
    as (j & _ & _ & H).
  split; [exact H0|exact (H H0)].
Defined.

(** ** The login scenario of the specification *)

Example login_scenario :
  let user := JObj [("id", JNum 1); ("email", JStr "a@x.com");
                    ("role", JStr "ADMIN")] in
  let server (_ : requestConfig) :=
    Some (HttpResponse 200 (JObj [("token", JStr "t1"); ("user", user)])) in
  let out :=
    login Codec.stringify Codec.toString server "a@x.com" "pw"
          (World ∅ "/login" []) (AuthState JNull false) in
  out.1.1 = Success
  ∧ isAuthenticated out.2 = true
  ∧ getItem TOKEN_KEY out.1.2 = Some "t1"
  ∧ (getItem USER_KEY out.1.2 ≫= Codec.parse) = Some user
  ∧ mount Codec.parse out.1.2 = (out.1.2, AuthState user false).
Proof. repeat split; reflexivity. Qed.

(** * Further properties of the session flow *)

Section Session.

Variable JSON_parse : string → option jsval.
Variable JSON_stringify : jsval → string.
Variable ToString : jsval → string.

Lemma isAdminRole_object (user : jsval) :
  isAdminRole (getOpt user "role") = true → truthy user = true.
Proof. by destruct user. Qed.

Lemma getProp_object (fs : list (string * jsval)) (k : string) :
  getProp (JObj fs) k = Ok (getOpt (JObj fs) k).
Proof. done. Qed.

Lemma loginTry_admin (response : httpResponse) (w : world) (a : authState) :
  isAdminRole (getOpt (getOpt (data response) "user") "role") = true →
  loginTry JSON_stringify ToString (Ok response) w a
  = Ok (Success,
        setItem USER_KEY (JSON_stringify (getOpt (data response) "user"))
          (setItem TOKEN_KEY (ToString (getOpt (data response) "token")) w),
        setAdmin (getOpt (data response) "user") a).
Proof.
  intros Hrole. unfold loginTry. rewrite bind_Ok.
  destruct (data response) as [| | | | | |fs] eqn:Hd; try discriminate Hrole.
  rewrite !(getProp_object fs), !bind_Ok.
  destruct (getOpt (JObj fs) "user") as [| | | | | |ufs] eqn:Hu;
    try discriminate Hrole.
  rewrite (getProp_object ufs), bind_Ok. by rewrite Hrole.
Qed.

Lemma login_unfold (server : requestConfig → option httpResponse)
    (email password : string) (w : world) (a : authState) :
  login JSON_stringify ToString server email password w a
  = match settle (server (loginRequest email password w)) with
    | Ok response =>
        match loginTry JSON_stringify ToString (Ok response) w a with
        | Ok outcome => outcome
        | Throw error => (loginCatch error, w, a)
        end
    | Throw error => (loginCatch error, onRejected error w, a)
    end.
Proof.
  unfold login, adminAPI_login, adminAxios.
  fold (loginRequest email password w).
  by destruct (settle _).
Qed.

(** X1.  [login] succeeds exactly when the request is fulfilled and the
    returned user's role is ['ADMIN']; it then stores the token and the
    serialized user, in that order, makes the user the current admin, and
    the context reports [isAuthenticated]. *)
Theorem login_success_iff (server : requestConfig → option httpResponse)
    (email password : string) (w : world) (a : authState) :
  let out := login JSON_stringify ToString server email password w a in
  let reply := settle (server (loginRequest email password w)) in
  (out.1.1 = Success ↔
   ∃ response, reply = Ok response
     ∧ isAdminRole (getOpt (getOpt (data response) "user") "role") = true)
  ∧ (∀ response, reply = Ok response →
       isAdminRole (getOpt (getOpt (data response) "user") "role") = true →
       journal out.1.2
       = journal w
         ++ [SetItem TOKEN_KEY (ToString (getOpt (data response) "token"));
             SetItem USER_KEY
                     (JSON_stringify (getOpt (data response) "user"))]
       ∧ getItem TOKEN_KEY out.1.2
         = Some (ToString (getOpt (data response) "token"))
       ∧ getItem USER_KEY out.1.2
         = Some (JSON_stringify (getOpt (data response) "user"))
       ∧ href out.1.2 = href w
       ∧ admin out.2 = getOpt (data response) "user"
       ∧ isAuthenticated out.2 = true).
Proof.
  intros out reply. subst out reply. rewrite login_unfold.
  destruct (settle _) as [response|error] eqn:Hs.
  - destruct (isAdminRole (getOpt (getOpt (data response) "user") "role"))
      eqn:Hrole.
    + rewrite (loginTry_admin _ _ _ Hrole). split.
      * split; [intros _; by exists response|done].
      * intros ? [= <-] _. simpl. unfold getItem. simpl.
        split; [by rewrite <- app_assoc|].
        split; [by rewrite lookup_insert_ne, lookup_insert_eq|].
        split; [by rewrite lookup_insert_eq|].
        split; [done|]. split; [done|].
        by apply isAdminRole_object.
    + pose proof (loginTry_gate JSON_stringify ToString response w a Hrole)
        as Hgate.
      destruct (loginTry _ _ _ _ _) as [outcome|error].
      * destruct Hgate as [msg ->]. split.
        -- split; [done|]. intros (? & [= <-] & ?). congruence.
        -- intros ? [= <-] ?. congruence.
      * split.
        -- split; [done|]. intros (? & [= <-] & ?). congruence.
        -- intros ? [= <-] ?. congruence.
  - split; [|done]. split; [done|]. by intros (? & ? & _).
Qed.

Lemma loginTry_cases (response : httpResponse) (w : world) (a : authState) :
  (isAdminRole (getOpt (getOpt (data response) "user") "role") = true
   ∧ loginTry JSON_stringify ToString (Ok response) w a
     = Ok (Success,
           setItem USER_KEY (JSON_stringify (getOpt (data response) "user"))
             (setItem TOKEN_KEY
                (ToString (getOpt (data response) "token")) w),
           setAdmin (getOpt (data response) "user") a))
  ∨ (isAdminRole (getOpt (getOpt (data response) "user") "role") = false
     ∧ (loginTry JSON_stringify ToString (Ok response) w a
        = Ok (Failure (JStr "Access denied. Admin privileges required."),
              w, a)
        ∨ loginTry JSON_stringify ToString (Ok response) w a
          = Throw TypeError)).
Proof.
  destruct (isAdminRole (getOpt (getOpt (data response) "user") "role"))
    eqn:Hrole.
  - left. split; [done|]. by apply loginTry_admin.
  - right. split; [done|]. unfold loginTry. rewrite bind_Ok.
    destruct (data response) as [| | | | | |fs] eqn:Hd;
      try (by right); try (by left).
    rewrite !(getProp_object fs), !bind_Ok.
    destruct (getOpt (JObj fs) "user") as [| | | | | |ufs] eqn:Hu;
      try (by right); try (by left).
    rewrite (getProp_object ufs), bind_Ok. rewrite Hrole. by left.
Qed.

Lemma orElse_truthy (v w : jsval) : truthy w = true → truthy (orElse v w) = true.
Proof. unfold orElse. by destruct (truthy v) eqn:E. Qed.

Lemma login_admin (server : requestConfig → option httpResponse)
    (email password : string) (w : world) (a : authState)
    (response : httpResponse) :
  settle (server (loginRequest email password w)) = Ok response →
  isAdminRole (getOpt (getOpt (data response) "user") "role") = true →
  login JSON_stringify ToString server email password w a
  = (Success,
     setItem USER_KEY (JSON_stringify (getOpt (data response) "user"))
       (setItem TOKEN_KEY (ToString (getOpt (data response) "token")) w),
     setAdmin (getOpt (data response) "user") a).
Proof.
  intros Hs Hrole. rewrite login_unfold, Hs.
  by rewrite (loginTry_admin _ _ _ Hrole).
Qed.

Lemma login_failure (server : requestConfig → option httpResponse)
    (email password : string) (w : world) (a : authState) (error : jsval) :
  (login JSON_stringify ToString server email password w a).1.1
  = Failure error →
  truthy error = true
  ∧ (login JSON_stringify ToString server email password w a).2 = a.
Proof.
  rewrite login_unfold.
  destruct (settle _) as [response|err].
  - destruct (loginTry_cases response w a)
      as [[_ ->]|[_ [->| ->]]]; simpl; [done| |].
    + by intros [= <-].
    + intros [= <-]. by split.
  - simpl. intros [= <-]. split; [|done]. by apply orElse_truthy.
Qed.

Lemma login_success (server : requestConfig → option httpResponse)
    (email password : string) (w : world) (a : authState) :
  (login JSON_stringify ToString server email password w a).1.1 = Success →
  ∃ response,
    settle (server (loginRequest email password w)) = Ok response
    ∧ isAdminRole (getOpt (getOpt (data response) "user") "role") = true
    ∧ login JSON_stringify ToString server email password w a
      = (Success,
         setItem USER_KEY (JSON_stringify (getOpt (data response) "user"))
           (setItem TOKEN_KEY
              (ToString (getOpt (data response) "token")) w),
         setAdmin (getOpt (data response) "user") a).
Proof.
  rewrite login_unfold.
  destruct (settle _) as [response|err] eqn:Hs; [|done].
  destruct (loginTry_cases response w a) as [[Hrole ->]|[_ [->| ->]]];
    [|done..].
  intros _. by exists response.
Qed.

(** X2.  A successful login survives a page load when the stored token is
    not empty and the stored record parses back to the user: the mount
    effect then restores that user and leaves the store as it is.  A login
    that stores an empty token is lost at the next page load, although the
    context reported it as authenticated. *)
Theorem login_survives_reload (server : requestConfig → option httpResponse)
    (email password : string) (w : world) (a : authState)
    (response : httpResponse) :
  settle (server (loginRequest email password w)) = Ok response →
  isAdminRole (getOpt (getOpt (data response) "user") "role") = true →
  let user := getOpt (data response) "user" in
  let token := getOpt (data response) "token" in
  let out := login JSON_stringify ToString server email password w a in
  (ToString token ≠ "" → JSON_stringify user ≠ "" →
   JSON_parse (JSON_stringify user) = Some user →
   mount JSON_parse out.1.2 = (out.1.2, AuthState user false)
   ∧ phaseOf (mount JSON_parse out.1.2).2 = Authenticated user)
  ∧ (ToString token = "" →
     isAuthenticated out.2 = true
     ∧ mount JSON_parse out.1.2 = (out.1.2, AuthState JNull false)).
Proof.
  intros Hs Hrole user token out. subst out.
  rewrite (login_admin _ _ _ _ _ _ Hs Hrole). fold user token. simpl.
  assert (Htok : getItem TOKEN_KEY
                   (setItem USER_KEY (JSON_stringify user)
                      (setItem TOKEN_KEY (ToString token) w))
                 = Some (ToString token)).
  { unfold getItem. simpl. by rewrite lookup_insert_ne, lookup_insert_eq. }
  assert (Husr : getItem USER_KEY
                   (setItem USER_KEY (JSON_stringify user)
                      (setItem TOKEN_KEY (ToString token) w))
                 = Some (JSON_stringify user)).
  { unfold getItem. simpl. by rewrite lookup_insert_eq. }
  split.
  - intros Ht Hu Hparse. unfold mount, sessionRestore.
    rewrite Htok, Husr, !itemTruthy_Some by done. simpl. rewrite Hparse.
    simpl. split; [done|]. unfold phaseOf, isAuthenticated. simpl.
    by rewrite (isAdminRole_object user Hrole).
  - intros Ht. split; [by apply isAdminRole_object|].
    apply mount_without_session. rewrite Htok, Ht. done.
Qed.

(** X3.  After [handleSubmit] the loading flag is down again.  When
    [login] succeeded, the admin is authenticated, the error is empty, no
    banner is rendered and the router has been sent to [/products].  When
    [login] failed, the router has not moved, the state of the context is
    unchanged and the error is set to the failure's message, which is
    truthy: a message that is a string is not empty and is the text of the
    banner; a message that is an object makes the render of the banner
    throw, and [true] gives a banner without text.  So when the server
    rejects the request with an [error] that is an object the page fails to
    render, and with an [error] that is a string the banner shows it. *)
Theorem handleSubmit_outcome (server : requestConfig → option httpResponse)
    (email password : string) (w : world) (a : authState)
    (history : list string) :
  let out :=
    handleSubmit JSON_stringify ToString server email password w a history in
  let result := (login JSON_stringify ToString server email password w a).1.1 in
  let reply := settle (server (loginRequest email password w)) in
  formLoading out.1.2 = false
  ∧ (result = Success →
     out.2 = navigate "/products" history
     ∧ formError out.1.2 = JStr ""
     ∧ loginBanner ToString out.1.2 = NoBanner
     ∧ isAuthenticated out.1.1.2 = true)
  ∧ (∀ error, result = Failure error →
       formError out.1.2 = error
       ∧ truthy error = true
       ∧ out.2 = history
       ∧ out.1.1.2 = a
       ∧ (∀ text, error = JStr text →
            text ≠ "" ∧ loginBanner ToString out.1.2 = Banner text)
       ∧ (∀ fs, error = JObj fs → loginBanner ToString out.1.2 = RenderError)
       ∧ (error = JBool true → loginBanner ToString out.1.2 = Banner ""))
  ∧ (∀ response, reply = Throw (AxiosError (Some response)) →
       (∀ fs, getOpt (data response) "error" = JObj fs →
              loginBanner ToString out.1.2 = RenderError)
       ∧ (∀ text, getOpt (data response) "error" = JStr text → text ≠ "" →
                  loginBanner ToString out.1.2 = Banner text)).
Proof.
  intros out result reply. subst out result reply. unfold handleSubmit.
  pose proof (login_failure server email password w a) as Hfail.
  pose proof (login_success server email password w a) as Hok.
  pose proof (login_unfold server email password w a) as Hun.
  destruct (login JSON_stringify ToString server email password w a)
    as [[result w'] a'] eqn:Hlogin.
  cbn [fst snd] in *.
  split; [by destruct result|]. split; [|split].
  - intros ->. destruct (Hok eq_refl) as (response & Hs & Hrole & [= -> ->]).
    cbn [fst snd formError]. split; [done|]. split; [done|]. split; [done|].
    by apply isAdminRole_object.
  - intros error ->. destruct (Hfail error eq_refl) as [Ht ->].
    cbn [fst snd formError]. unfold loginBanner. cbn [formError].
    rewrite Ht.
    split; [done|]. split; [done|]. split; [done|]. split; [done|].
    split; [|split].
    + intros text ->. split; [|done]. by intros ->.
    + by intros fs ->.
    + by intros ->.
  - intros response Hs. rewrite Hs in Hun. unfold loginCatch in Hun.
    cbn [errorMessage] in Hun. injection Hun as -> _ _.
    cbn [fst snd formError]. unfold loginBanner. cbn [formError]. split.
    + intros fs ->. done.
    + intros text -> Hne. unfold orElse. cbn [truthy].
      destruct (String.eqb_spec text ""); [done|]. cbn [negb]. cbn [truthy].
      destruct (String.eqb_spec text ""); [done|]. done.
Qed.

(** X4.  [logout] ends the session from any state: both entries are gone
    and no other entry is touched, the admin is cleared, the location is
    not changed by [logout] itself, the route guard of a loaded application
    redirects to the login view, later requests leave without an
    Authorization header being added, and a page load finds no session. *)
Theorem logout_ends_session (w : world) (a : authState) :
  let out := logout w a in
  getItem TOKEN_KEY out.1 = None
  ∧ getItem USER_KEY out.1 = None
  ∧ (∀ k, k ≠ TOKEN_KEY → k ≠ USER_KEY → getItem k out.1 = getItem k w)
  ∧ href out.1 = href w
  ∧ admin out.2 = JNull
  ∧ (loading a = false → ProtectedRoute out.2 = Navigate "/login" true)
  ∧ (∀ config, requestInterceptor out.1 config = config)
  ∧ mount JSON_parse out.1 = (out.1, AuthState JNull false).
Proof.
  intros out. subst out. unfold logout. simpl.
  assert (Htok : getItem TOKEN_KEY
                   (removeItem USER_KEY (removeItem TOKEN_KEY w)) = None).
  { unfold getItem. simpl. by rewrite lookup_delete_ne, lookup_delete_eq. }
  split; [done|].
  split; [unfold getItem; simpl; by rewrite lookup_delete_eq|].
  split.
  { intros k H1 H2. unfold getItem. simpl. by rewrite !lookup_delete_ne. }
  split; [done|]. split; [done|]. split.
  { intros Hl. unfold ProtectedRoute, setAdmin. simpl. by rewrite Hl. }
  split.
  { intros config. unfold requestInterceptor. by rewrite Htok. }
  apply mount_without_session. by rewrite Htok.
Qed.

(** X5.  Logging in and out again restores the store: when no entry was
    stored before a successful login, [handleLogout] leaves the store as it
    was before the login, with no admin, and sends the router to
    [/login]. *)
Theorem login_then_logout_restores_store
    (server : requestConfig → option httpResponse)
    (email password : string) (w : world) (a : authState)
    (history : list string) :
  getItem TOKEN_KEY w = None → getItem USER_KEY w = None →
  (login JSON_stringify ToString server email password w a).1.1 = Success →
  let logged := login JSON_stringify ToString server email password w a in
  let out := handleLogout logged.1.2 logged.2 history in
  storage out.1.1 = storage w
  ∧ admin out.1.2 = JNull
  ∧ out.2 = "/login" :: history.
Proof.
  intros Ht Hu Hsucc logged out. subst out logged.
  destruct (login_success _ _ _ _ _ Hsucc) as (response & _ & _ & ->).
  unfold handleLogout, logout. simpl.
  split; [|done]. unfold getItem in *.
  rewrite (delete_insert_ne _ TOKEN_KEY USER_KEY) by done.
  rewrite delete_insert_eq. rewrite delete_insert_eq.
  rewrite (delete_id (storage w) TOKEN_KEY) by done.
  by rewrite delete_id.
Qed.

(** X6.  A request answered 401 ends the session for good: the caller
    receives the rejection, the location is the login view, both entries
    are gone, later requests leave without an Authorization header being
    added, and the page load that follows finds no session, whatever was
    stored before. *)
Theorem unauthorized_ends_session
    (server : requestConfig → option httpResponse)
    (config : requestConfig) (w : world) (response : httpResponse) :
  server (requestInterceptor w config) = Some response →
  status response = 401%Z →
  let out := adminAxios server config w in
  out.1 = Throw (AxiosError (Some response))
  ∧ href out.2 = "/login"
  ∧ getItem TOKEN_KEY out.2 = None
  ∧ getItem USER_KEY out.2 = None
  ∧ (∀ config', requestInterceptor out.2 config' = config')
  ∧ mount JSON_parse out.2 = (out.2, AuthState JNull false).
Proof.
  intros Hs H401 out. subst out. unfold adminAxios, settle.
  rewrite Hs, H401. simpl.
  rewrite (onRejected_401 (AxiosError (Some response)) w)
    by (simpl; by rewrite H401).
  assert (Htok : getItem TOKEN_KEY
                   (World (delete USER_KEY (delete TOKEN_KEY (storage w)))
                          "/login" (journal w ++ clearAndRedirect)) = None).
  { unfold getItem. simpl. by rewrite lookup_delete_ne, lookup_delete_eq. }
  split; [done|]. split; [done|]. split; [done|].
  split; [unfold getItem; simpl; by rewrite lookup_delete_eq|].
  split.
  { intros config'. unfold requestInterceptor. by rewrite Htok. }
  apply mount_without_session. by rewrite Htok.
Qed.

Lemma itemTruthy_inv (item : option string) :
  itemTruthy item = true → ∃ s, item = Some s ∧ s ≠ "".
Proof.
  destruct item as [s|]; [|done]. simpl.
  destruct (String.eqb_spec s ""); [done|]. by exists s.
Qed.

(** X7.  What a page load decides.  The mount effect always ends with
    loading off.  The admin is authenticated afterwards exactly when both
    entries are stored and not empty and the record parses to a truthy
    value, and then the store is left as it is.  A record that parses to a
    falsy value (such as [null]) leaves the application unauthenticated
    with both entries still stored. *)
Theorem mount_authenticated_iff (w : world) :
  let out := mount JSON_parse w in
  loading out.2 = false
  ∧ (isAuthenticated out.2 = true ↔
     ∃ t d user,
       getItem TOKEN_KEY w = Some t ∧ t ≠ ""
       ∧ getItem USER_KEY w = Some d ∧ d ≠ ""
       ∧ JSON_parse d = Some user ∧ truthy user = true
       ∧ out = (w, AuthState user false))
  ∧ (∀ t d user,
       getItem TOKEN_KEY w = Some t → t ≠ "" →
       getItem USER_KEY w = Some d → d ≠ "" →
       JSON_parse d = Some user → truthy user = false →
       out.1 = w ∧ phaseOf out.2 = Unauthenticated).
Proof.
  intros out. subst out.
  destruct (itemTruthy (getItem TOKEN_KEY w)
            && itemTruthy (getItem USER_KEY w)) eqn:Hboth.
  - apply andb_true_iff in Hboth as [Ht Hd].
    apply itemTruthy_inv in Ht as (t & Ht & Hte).
    apply itemTruthy_inv in Hd as (d & Hd & Hde).
    unfold mount, sessionRestore.
    rewrite Ht, Hd, !itemTruthy_Some by done. simpl.
    destruct (JSON_parse d) as [user|] eqn:Hp; simpl.
    + split; [done|]. split.
      * unfold isAuthenticated. simpl. split.
        -- intros Hu. by exists t, d, user.
        -- intros (t' & d' & user' & _ & _ & Hd' & _ & Hp' & Hu & _).
           congruence.
      * intros t' d' user' _ _ Hd' _ Hp' Hu. split; [done|].
        unfold phaseOf, isAuthenticated. simpl.
        assert (user' = user) as -> by congruence. by rewrite Hu.
    + split; [done|]. split.
      * split; [done|].
        intros (t' & d' & user' & _ & _ & Hd' & _ & Hp' & _). congruence.
      * intros t' d' user' _ _ Hd' _ Hp' _. congruence.
  - rewrite (mount_without_session JSON_parse w Hboth). simpl.
    split; [done|]. split.
    + split; [done|].
      intros (t & d & user & Ht & Hte & Hd & Hde & _).
      rewrite Ht, Hd, !itemTruthy_Some in Hboth by done. done.
    + intros t d user Ht Hte Hd Hde _ _.
      rewrite Ht, Hd, !itemTruthy_Some in Hboth by done. done.
Qed.

End Session.

(** * Further properties of the API client *)

Section Wrappers.

Variable ToString : jsval → string.



End Wrappers.

(** ** Batches of rejected responses *)

(** X9.  The result of handling a batch of rejected responses does not
    depend on the order in which they arrive: any two arrival orders of the
    same rejections leave the same store, the same location and the same
    journal. *)
Theorem onRejectedAll_order_irrelevant (errors errors' : list exn)
    (w : world) :
  errors ≡ₚ errors' → onRejectedAll errors w = onRejectedAll errors' w.
Proof.
  intros Hperm. revert w.
  induction Hperm as [|e l l' _ IH|e1 e2 l|l l' l'' _ IH1 _ IH2]; intros w.
  - done.
  - unfold onRejectedAll in *. simpl. apply IH.
  - unfold onRejectedAll. simpl. f_equal.
    destruct (decide (errorStatus e1 = Some 401%Z)) as [H1|H1];
      destruct (decide (errorStatus e2 = Some 401%Z)) as [H2|H2];
      rewrite ?(onRejected_other e1) by done;
      rewrite ?(onRejected_other e2) by done; try done.
    rewrite (onRejected_401 e1 _ H1), (onRejected_401 e2 _ H2).
    by rewrite (onRejected_401 e1 _ H1), (onRejected_401 e2 _ H2).
  - by rewrite IH1, IH2.
Qed.

(** ** What [productsAPI.getAll] returns and when it throws *)











(** ** The two enumerations on arbitrary values *)

Lemma nodes_elem (xs : list jsval) (k : node) :
  k ∈ nodes xs ↔ xs !! ident k = Some (val k).
Proof.
  unfold nodes. rewrite elem_of_lookup_imap. split.
  - by intros (i & y & -> & Hy).
  - intros H. exists (ident k), (val k). split; [by destruct k|done].
Qed.

Lemma sameValueZero_val (xs : list jsval) (a b : node) :
  a ∈ nodes xs → b ∈ nodes xs → sameValueZero a b = true → val a = val b.
Proof.
  rewrite !nodes_elem. unfold sameValueZero. intros Ha Hb.
  destruct (val a) eqn:Ea, (val b) eqn:Eb; try done.
  - rewrite Bool.eqb_true_iff. congruence.
  - rewrite Z.eqb_eq. congruence.
  - rewrite String.eqb_eq. congruence.
  - intros H%Nat.eqb_eq. congruence.
  - intros H%Nat.eqb_eq. congruence.
  - intros H%Nat.eqb_eq. congruence.
  - intros H%Nat.eqb_eq. congruence.
Qed.

Lemma sameValueZero_refl (a : node) : sameValueZero a a = true.
Proof.
  unfold sameValueZero. destruct (val a); try done.
  - by destruct b.
  - apply Z.eqb_refl.
  - apply String.eqb_refl.
  - apply Nat.eqb_refl.
  - apply Nat.eqb_refl.
Qed.

Lemma newSet_fold (l s0 : list node) :
  ∃ l', foldl (λ s k, setAdd k s) s0 l = s0 ++ l'
        ∧ l' `sublist_of` l
        ∧ ∀ k, k ∈ l → ∃ k', k' ∈ s0 ++ l' ∧ sameValueZero k' k = true.
Proof.
  revert s0. induction l as [|a l IH]; intros s0.
  - exists []. rewrite app_nil_r. split; [done|]. split; [constructor|].
    intros k Hk. by apply elem_of_nil in Hk.
  - cbn [foldl]. unfold setAdd at 2.
    destruct (existsb (λ k', sameValueZero k' a) s0) eqn:E.
    + destruct (IH s0) as (l' & Heq & Hsub & Hcov).
      exists l'. split; [done|]. split; [by apply sublist_cons|].
      intros k [->|Hk]%elem_of_cons; [|by apply Hcov].
      apply existsb_exists in E as (k' & Hin & Hsame).
      exists k'. split; [|done].
      apply elem_of_app. left. by apply list_elem_of_In.
    + destruct (IH (s0 ++ [a])) as (l' & Heq & Hsub & Hcov).
      exists (a :: l'). rewrite Heq, <- app_assoc. split; [done|].
      split; [by apply sublist_skip|].
      intros k [->|Hk]%elem_of_cons.
      * exists a. split; [|apply sameValueZero_refl].
        apply elem_of_app. right. by left.
      * destruct (Hcov k Hk) as (k' & Hin & Hsame).
        exists k'. split; [|done]. by rewrite <- app_assoc in Hin.
Qed.

Lemma mapSet_entries (xs : list jsval) (k : node) (m : list (node * jsval)) :
  k ∈ nodes xs →
  Forall (λ e, e.1 ∈ nodes xs ∧ e.2 = idValue (val e.1)) m →
  Forall (λ e, e.1 ∈ nodes xs ∧ e.2 = idValue (val e.1))
         (mapSet k (idValue (val k)) m).
Proof.
  intros Hk. induction 1 as [|[k' v'] m [Hin Hv] Hm IH]; simpl.
  - by repeat constructor.
  - destruct (sameValueZero k' k) eqn:E.
    + constructor; [|done]. simpl in *. split; [done|].
      by rewrite (sameValueZero_val xs k' k Hin Hk E).
    + by constructor.
Qed.

Lemma newMap_fold (xs : list jsval) (l : list node) (m : list (node * jsval)) :
  l ⊆ nodes xs →
  Forall (λ e, e.1 ∈ nodes xs ∧ e.2 = idValue (val e.1)) m →
  Forall (λ e, e.1 ∈ nodes xs ∧ e.2 = idValue (val e.1))
         (foldl (λ m' e, mapSet e.1 e.2 m') m (colorEntry <$> l))
  ∧ fst <$> foldl (λ m' e, mapSet e.1 e.2 m') m (colorEntry <$> l)
    = foldl (λ s' k, setAdd k s') (fst <$> m) l.
Proof.
  revert m. induction l as [|k l IH]; intros m Hsub Hm.
  - done.
  - rewrite fmap_cons. cbn [foldl]. rewrite colorEntry_key. cbn [fst snd].
    destruct (IH (mapSet k (idValue (val k)) m)) as [H1 H2].
    { intros x Hx. apply Hsub. by right. }
    { apply mapSet_entries; [|done]. apply Hsub. by left. }
    split; [done|]. by rewrite H2, mapSet_keys.
Qed.

Lemma sameValueZero_trans (a b c : node) :
  sameValueZero a b = true → sameValueZero b c = true →
  sameValueZero a c = true.
Proof.
  unfold sameValueZero.
  destruct (val a), (val b), (val c); try done;
    rewrite ?Bool.eqb_true_iff, ?Z.eqb_eq, ?String.eqb_eq, ?Nat.eqb_eq;
    congruence.
Qed.

Lemma existsb_sameValueZero_snoc (s : list node) (a k : node) :
  existsb (λ k', sameValueZero k' k) (s ++ [a])
  = existsb (λ k', sameValueZero k' k) s || sameValueZero a k.
Proof. rewrite existsb_app. simpl. by rewrite orb_false_r. Qed.

Lemma newSet_firstAppearances (l s0 before : list node) :
  (∀ k, existsb (λ k', sameValueZero k' k) before
        = existsb (λ k', sameValueZero k' k) s0) →
  foldl (λ s k, setAdd k s) s0 l = s0 ++ firstAppearances before l.
Proof.
  revert s0 before. induction l as [|a l IH]; intros s0 before Hsame.
  - by rewrite app_nil_r.
  - cbn [foldl firstAppearances]. unfold setAdd at 2. rewrite Hsame.
    destruct (existsb (λ k', sameValueZero k' a) s0) eqn:E.
    + apply IH. intros k. rewrite existsb_sameValueZero_snoc, Hsame.
      destruct (sameValueZero a k) eqn:Hak; [|by rewrite orb_false_r].
      rewrite orb_true_r. symmetry.
      apply existsb_exists in E as (k0 & Hin & Hk0).
      apply existsb_exists. exists k0. split; [done|].
      by apply (sameValueZero_trans k0 a k).
    + rewrite (IH (s0 ++ [a]) (before ++ [a])).
      * by rewrite <- app_assoc.
      * intros k. by rewrite !existsb_sameValueZero_snoc, Hsame.
Qed.

(** X11.  On every list of collected values, bare or not, the color
    enumeration (a [Map] keyed by the value) and the size enumeration (a
    [Set]) compute the same list: [{id: v, value: v}] for the collected
    values in the order of their first appearance, a value being kept
    exactly when none of the values before it is the same.  So the list is
    a subsequence of the collected values, and it holds
    [{id: v, value: v}] for exactly the values [v] that were collected:
    nothing is lost and nothing is made up. *)
Theorem enumerations_agree (xs : list jsval) :
  uniqueColors xs = uniqueSizes xs
  ∧ uniqueSizes xs
    = (λ k, idValue (val k)) <$> firstAppearances [] (nodes xs)
  ∧ uniqueSizes xs `sublist_of` (idValue <$> xs)
  ∧ (∀ v, idValue v ∈ uniqueSizes xs ↔ v ∈ xs).
Proof.
  destruct (newSet_fold (nodes xs) []) as (l' & Heq & Hsub & Hcov).
  simpl in Heq.
  destruct (newMap_fold xs (nodes xs) []) as (Hm & Hkeys);
    [done|constructor|].
  assert (Hsizes : uniqueSizes xs = idValue <$> (val <$> l')).
  { unfold uniqueSizes, newSet. by rewrite Heq, <- list_fmap_compose. }
  split; [|split; [|split]].
  - rewrite Hsizes. unfold uniqueColors, newMap.
    rewrite <- list_fmap_compose. rewrite <- Heq.
    change (@nil node) with (fst <$> @nil (node * jsval)).
    rewrite <- Hkeys, <- list_fmap_compose.
    apply Forall_fmap_ext_1. eapply Forall_impl; [exact Hm|].
    by intros [k v] [_ ->].
  - unfold uniqueSizes, newSet.
    by rewrite (newSet_firstAppearances (nodes xs) [] []).
  - rewrite Hsizes. apply fmap_sublist.
    assert (Hvals : val <$> l' `sublist_of` val <$> nodes xs)
      by by apply fmap_sublist.
    by rewrite nodes_val in Hvals.
  - intros v. rewrite Hsizes. split.
    + intros (v' & Hv' & Hin)%list_elem_of_fmap.
      assert (v' = v) as -> by (unfold idValue in Hv'; congruence).
      apply list_elem_of_fmap in Hin as (k & -> & Hk).
      rewrite <- (nodes_val xs). apply list_elem_of_fmap_2.
      by eapply elem_of_sublist.
    + intros Hv. rewrite <- (nodes_val xs) in Hv.
      apply list_elem_of_fmap in Hv as (k & -> & Hk).
      destruct (Hcov k Hk) as (k' & Hin & Hsame). simpl in Hin.
      apply list_elem_of_fmap_2.
      rewrite <- (sameValueZero_val xs k' k); [|by eapply elem_of_sublist|done..].
      by apply list_elem_of_fmap_2.
Qed.

(** Bare strings across three products, one of them repeated. *)
Lemma enumeration_of_bare_values_witness :
  let xs := [JStr "red"; JStr "blue"; JStr "red"; JNum 7; JStr "blue"] in
  Forall (λ x, isPrimitive x = true) xs
  ∧ ∃ ys, uniqueColors xs = idValue <$> ys
          ∧ uniqueSizes xs = idValue <$> ys
          ∧ NoDup ys
          ∧ ∀ x, x ∈ ys ↔ x ∈ xs.
Proof.
  intros xs.
  assert (H : Forall (λ x, isPrimitive x = true) xs) by by repeat constructor.
  split; [exact H|exact (enumeration_of_bare_values xs H)].
Defined.

(** ** Loading the catalogue *)

Lemma colorsAPI_getAll_shape (response : httpResponse) (out : jsval) :
  colorsAPI_getAll response = Ok out →
  ∃ cs, out = JObj [("data", JObj [("colors", JArr cs)])].
Proof.
  unfold colorsAPI_getAll. intros H.
  apply bind_inv in H as (raw & _ & H).
  apply bind_inv in H as (allColors & _ & [= <-]). by eexists.
Qed.

Lemma sizesAPI_getAll_shape (response : httpResponse) (out : jsval) :
  sizesAPI_getAll response = Ok out →
  ∃ ss, out = JObj [("data", JObj [("sizes", JArr ss)])].
Proof.
  unfold sizesAPI_getAll. intros H.
  apply bind_inv in H as (raw & _ & H).
  apply bind_inv in H as (allSizes & _ & [= <-]). by eexists.
Qed.

Lemma productsAPI_getAll_array (response : httpResponse) (out : jsval) :
  productsAPI_getAll response = Ok out →
  ∃ qs, out = JObj [("data", JObj [("success", JBool true);
                                   ("products", JArr qs)])].
Proof.
  unfold productsAPI_getAll. intros H.
  apply bind_inv in H as (raw & _ & H).
  apply bind_inv in H as (products & Hps & [= <-]).
  unfold normalizeProducts in Hps.
  destruct raw as [| | | | |ps|]; try discriminate Hps;
    try (injection Hps as <-; by eexists).
  simpl in Hps. destruct (mapM _ ps); [|done].
  injection Hps as <-. by eexists.
Qed.

(** X12.  [fetchData] always ends with the loading flag down.  When all
    three requests are fulfilled and their wrappers return, the three lists
    are replaced by what the wrappers returned, each of them an array, the
    world is untouched, and an error shown earlier stays as it was.  When
    one of the three is rejected or its wrapper throws, the error becomes
    ['Failed to load data'] and the three lists keep their previous
    content. *)
Theorem fetchData_outcome (server : nat → requestConfig → option httpResponse)
    (w : world) (st : Catalog.catalogState) :
  let out := Catalog.fetchData server w st in
  let config :=
    requestInterceptor w (RequestConfig "get" "/admin/products" ∅ JUndefined) in
  let products := settle (server 0 config) ≫= productsAPI_getAll in
  let colors := settle (server 1 config) ≫= colorsAPI_getAll in
  let sizes := settle (server 2 config) ≫= sizesAPI_getAll in
  Catalog.stLoading out.2 = false
  ∧ (∀ productsRes colorsRes sizesRes,
       products = Ok productsRes → colors = Ok colorsRes →
       sizes = Ok sizesRes →
       Catalog.stProducts out.2
       = getOpt (getOpt productsRes "data") "products"
       ∧ Catalog.stColors out.2 = getOpt (getOpt colorsRes "data") "colors"
       ∧ Catalog.stSizes out.2 = getOpt (getOpt sizesRes "data") "sizes"
       ∧ (∃ ps cs ss, Catalog.stProducts out.2 = JArr ps
                      ∧ Catalog.stColors out.2 = JArr cs
                      ∧ Catalog.stSizes out.2 = JArr ss)
       ∧ Catalog.stError out.2 = Catalog.stError st
       ∧ out.1 = w)
  ∧ (∀ e, products = Throw e ∨ colors = Throw e ∨ sizes = Throw e →
       Catalog.stError out.2 = "Failed to load data"
       ∧ Catalog.stProducts out.2 = Catalog.stProducts st
       ∧ Catalog.stColors out.2 = Catalog.stColors st
       ∧ Catalog.stSizes out.2 = Catalog.stSizes st).
Proof.
  intros out config products colors sizes.
  subst out. unfold Catalog.fetchData. fold config. fold products colors sizes.
  cbn [snd fst Catalog.stLoading]. split; [done|]. split.
  - intros productsRes colorsRes sizesRes Hp Hc Hs.
    rewrite Hp, Hc, Hs, !bind_Ok.
    unfold products in Hp. unfold colors in Hc. unfold sizes in Hs.
    apply bind_inv in Hp as (r0 & H0 & Hp).
    apply bind_inv in Hc as (r1 & H1 & Hc).
    apply bind_inv in Hs as (r2 & H2 & Hs).
    destruct (productsAPI_getAll_array r0 productsRes Hp) as (ps & ->).
    destruct (colorsAPI_getAll_shape r1 colorsRes Hc) as (cs & ->).
    destruct (sizesAPI_getAll_shape r2 sizesRes Hs) as (ss & ->).
    rewrite H0, H1, H2. cbn.
    split; [done|]. split; [done|]. split; [done|].
    split; [by exists ps, cs, ss|]. done.
  - intros e Hfail.
    destruct products as [productsRes|e0]; [|done].
    destruct colors as [colorsRes|e1]; [|done].
    destruct sizes as [sizesRes|e2]; [|done].
    by destruct Hfail as [|[|]].
Qed.

(** X13.  With an expired session [fetchData] runs the 401 handler three
    times: when the three requests are answered 401, the journal gains
    three rounds of removing both entries and assigning the login location,
    the entries are gone, the error is ['Failed to load data'] and the
    lists keep their previous content. *)
Theorem fetchData_expired_session
    (server : nat → requestConfig → option httpResponse)
    (w : world) (st : Catalog.catalogState) :
  let out := Catalog.fetchData server w st in
  let config :=
    requestInterceptor w (RequestConfig "get" "/admin/products" ∅ JUndefined) in
  (∀ i, i < 3 → ∃ response,
          server i config = Some response ∧ status response = 401%Z) →
  journal out.1
  = journal w ++ clearAndRedirect ++ clearAndRedirect ++ clearAndRedirect
  ∧ redirectCount (journal out.1) = redirectCount (journal w) + 3
  ∧ getItem TOKEN_KEY out.1 = None
  ∧ getItem USER_KEY out.1 = None
  ∧ href out.1 = "/login"
  ∧ Catalog.stError out.2 = "Failed to load data"
  ∧ Catalog.stLoading out.2 = false
  ∧ Catalog.stProducts out.2 = Catalog.stProducts st
  ∧ Catalog.stColors out.2 = Catalog.stColors st
  ∧ Catalog.stSizes out.2 = Catalog.stSizes st.
Proof.
  intros out config H401. subst out. unfold Catalog.fetchData. fold config.
  destruct (H401 0) as (r0 & H0 & S0); [lia|].
  destruct (H401 1) as (r1 & H1 & S1); [lia|].
  destruct (H401 2) as (r2 & H2 & S2); [lia|].
  unfold settle. rewrite H0, H1, H2, S0, S1, S2. simpl.
  rewrite !onRejected_401 by (simpl; congruence). simpl.
  unfold getItem. simpl.
  split; [by rewrite <- !app_assoc|].
  split.
  { unfold redirectCount. rewrite !List.filter_app, !length_app. simpl. lia. }
  split; [by rewrite lookup_delete_ne, lookup_delete_eq|].
  split; [by rewrite lookup_delete_eq|done].
Qed.

(** * The variant form *)

Lemma alterAt_Ok {A : Type} (i : nat) (f : A → A) (l l' : list A) :
  Variants.alterAt i f l = Ok l' → ∃ x, l !! i = Some x ∧ l' = <[i := f x]> l.
Proof.
  unfold Variants.alterAt. destruct (l !! i) as [x|]; [|done].
  intros [= <-]. by exists x.
Qed.

Lemma insert_nonempty {A : Type} (i : nat) (x : A) (l : list A) :
  l ≠ [] → <[i := x]> l ≠ [].
Proof. destruct l, i; done. Qed.

Lemma alterAt_wellFormed (i : nat) (f : Variants.variant → Variants.variant)
    (vs vs' : list Variants.variant) :
  (∀ v, Variants.vSizes v ≠ [] → Variants.vSizes (f v) ≠ []) →
  wellFormedVariants vs → Variants.alterAt i f vs = Ok vs' →
  wellFormedVariants vs'.
Proof.
  intros Hf [Hne Hall] (x & Hx & ->)%alterAt_Ok. split.
  - by apply insert_nonempty.
  - apply Forall_insert; [done|]. apply Hf.
    rewrite Forall_forall in Hall. apply Hall.
    by eapply list_elem_of_lookup_2.
Qed.

Lemma apply_wellFormed (a : Variants.action) (vs vs' : list Variants.variant) :
  wellFormedVariants vs → Variants.apply a vs = Ok vs' →
  wellFormedVariants vs'.
Proof.
  intros Hwf. destruct a; simpl.
  - intros [= <-]. destruct Hwf as [Hne Hall]. split.
    + by destruct vs.
    + apply Forall_app. split; [done|]. by repeat constructor.
  - intros [= <-]. unfold Variants.removeAt.
    destruct (delete index vs) as [|v l] eqn:Hd; simpl.
    + split; [done|]. by repeat constructor.
    + split; [done|]. rewrite <- Hd. apply Forall_delete. apply Hwf.
  - by apply alterAt_wellFormed.
  - by apply alterAt_wellFormed.
  - by apply alterAt_wellFormed.
  - apply alterAt_wellFormed; [|done]. intros v _. simpl.
    by destruct (Variants.vSizes v).
  - apply alterAt_wellFormed; [|done]. intros v _. simpl.
    by destruct (Variants.removeAt sizeIndex (Variants.vSizes v)).
  - destruct (vs !! variantIndex) as [v|] eqn:Hv; [|done].
    intros H. apply bind_inv in H as (sizes & Hsizes & [= <-]).
    apply alterAt_Ok in Hsizes as (row & Hrow & ->).
    destruct Hwf as [Hne Hall]. split; [by apply insert_nonempty|].
    apply Forall_insert; [done|]. simpl. apply insert_nonempty.
    rewrite Forall_forall in Hall. apply Hall.
    by eapply list_elem_of_lookup_2.
  - intros [= <-]. split; [done|]. by repeat constructor.
  - intros [= <-]. split; [done|]. by repeat constructor.
Qed.

Lemma alterAt_inRange {A : Type} (i : nat) (f : A → A) (l : list A) :
  i < length l → ∃ l', Variants.alterAt i f l = Ok l'.
Proof.
  intros [x Hx]%lookup_lt_is_Some_2. unfold Variants.alterAt.
  rewrite Hx. by eexists.
Qed.

Lemma alterAt_Throw {A : Type} (i : nat) (f : A → A) (l : list A) (e : exn) :
  Variants.alterAt i f l = Throw e → e = TypeError ∧ ¬ i < length l.
Proof.
  unfold Variants.alterAt. destruct (l !! i) as [x|] eqn:Hx; [done|].
  intros [= <-]. split; [done|]. apply lookup_ge_None in Hx. lia.
Qed.

(** X14.  The variant form never runs empty.  From its initial state, and
    from any state with at least one variant and at least one size row per
    variant, every sequence of handler calls that goes through leaves at
    least one variant and at least one size row in each.  A handler called
    with the index of a rendered row always goes through; one that throws
    throws a [TypeError], and only for an index outside the list. *)
Theorem variant_form_never_empty :
  wellFormedVariants Variants.initial
  ∧ (∀ actions vs vs',
       wellFormedVariants vs → Variants.run actions vs = Ok vs' →
       wellFormedVariants vs')
  ∧ (∀ a vs, Variants.inRange a vs → ∃ vs', Variants.apply a vs = Ok vs')
  ∧ (∀ a vs e, Variants.apply a vs = Throw e →
               e = TypeError ∧ ¬ Variants.inRange a vs).
Proof.
  split; [|split; [|split]].
  - split; [done|]. by repeat constructor.
  - induction actions as [|a actions IH]; intros vs vs' Hwf; simpl.
    + by intros [= <-].
    + intros H. apply bind_inv in H as (vs1 & H1 & H).
      eapply IH; [|exact H]. by eapply apply_wellFormed.
  - intros a vs Hin. destruct a; simpl in *;
      try (by eexists); try (by apply alterAt_inRange).
    destruct Hin as (v & -> & Hj).
    destruct (alterAt_inRange sizeIndex (Variants.setField f value)
                (Variants.vSizes v) Hj) as [sizes ->].
    by eexists.
  - intros a vs e. destruct a; simpl; try done;
      try (by apply alterAt_Throw).
    destruct (vs !! variantIndex) as [v|] eqn:Hv.
    + destruct (Variants.alterAt _ _ _) as [sizes|e'] eqn:Hs; [done|].
      intros [= <-]. apply alterAt_Throw in Hs as [-> Hj].
      split; [done|]. intros (v' & Hv' & Hj'). congruence.
    + intros [= <-]. split; [done|]. intros (v' & Hv' & _). congruence.
Qed.

Section Payload.

Variable parseInt : jsval → jsval.

Lemma sentRows_format (rows : list Variants.sizeRow) :
  Forall2 (sentRow parseInt) rows (Variants.formatRow parseInt <$> rows).
Proof.
  apply Forall2_fmap_r, Forall_Forall2_diag, Forall_forall.
  by intros s _.
Qed.

(** X15.  What the edit form sends.  The [variants] field is left out
    exactly when no variant is filled in; when it is sent, it lists, in
    order, the variants with a colour and at least one size and no others,
    each with its colour and, in order, its size rows that have a value,
    every row with its value and its quantity read by [parseInt], [0] when
    that is falsy.  The creation form sends every variant as it is, all
    its rows and blank ones included. *)
Theorem edit_payload_has_no_blank (variants : list Variants.variant) :
  (Variants.formatForEdit parseInt variants = None ↔
   Forall (λ v, Variants.filled v = false) variants)
  ∧ (∀ payload,
       Variants.formatForEdit parseInt variants = Some payload →
       payload ≠ []
       ∧ (length payload ≤ length variants)%nat
       ∧ Forall (λ entry,
                   truthy (getOpt entry "color") = true
                   ∧ ∃ rows, getOpt entry "sizes" = JArr rows
                       ∧ rows ≠ []
                       ∧ Forall (λ r, truthy (getOpt r "value") = true) rows)
                payload
       ∧ Forall2 (λ v entry,
                    sentVariant parseInt (Variants.vColor v)
                      (List.filter (λ s, truthy (Variants.rowValue s))
                                   (Variants.vSizes v))
                      entry)
                 (List.filter Variants.filled variants) payload)
  ∧ length (Variants.formatForCreate parseInt variants) = length variants
  ∧ Forall2 (λ v entry,
               sentVariant parseInt (Variants.vColor v) (Variants.vSizes v)
                           entry)
            variants (Variants.formatForCreate parseInt variants).
Proof.
  unfold Variants.formatForEdit, Variants.formatForCreate.
  split; [|split; [|split]].
  - destruct (List.filter Variants.filled variants) as [|v l] eqn:Hf; simpl.
    + split; [|done]. intros _. apply Forall_forall. intros v Hv.
      destruct (Variants.filled v) eqn:E; [|done].
      assert (Hin : In v (List.filter Variants.filled variants)).
      { apply filter_In. split; [by apply list_elem_of_In|done]. }
      by rewrite Hf in Hin.
    + split; [done|]. intros Hall.
      assert (Hin : In v (List.filter Variants.filled variants))
        by (rewrite Hf; by left).
      apply filter_In in Hin as [Hin Hv].
      rewrite Forall_forall in Hall.
      rewrite (Hall v) in Hv; [done|by apply list_elem_of_In].
  - intros payload.
    set (fv := List.filter Variants.filled variants).
    destruct (0 <? length fv)%nat eqn:Hlen; [|done].
    apply Nat.ltb_lt in Hlen. intros [= <-].
    split; [intros Hnil%fmap_nil_inv; rewrite Hnil in Hlen; simpl in Hlen; lia|].
    split.
    { rewrite length_fmap. apply List.filter_length_le. }
    split; [|apply Forall2_fmap_r, Forall_Forall2_diag, Forall_forall;
             intros v' _; split; [done|]; eexists; split; [done|];
             apply sentRows_format].
    apply Forall_fmap, Forall_forall. intros v' Hv'.
    apply list_elem_of_In, filter_In in Hv' as [_ Hv'].
    unfold Variants.filled in Hv'. apply andb_true_iff in Hv' as [Hc Hs].
    simpl. split; [done|]. eexists. split; [done|].
    apply existsb_exists in Hs as (s & Hin & Hs). split.
    + intros Hnil%fmap_nil_inv.
      assert (Hin' : In s (List.filter (λ s, truthy (Variants.rowValue s))
                                       (Variants.vSizes v'))).
      { apply filter_In. by split. }
      by rewrite Hnil in Hin'.
    + apply Forall_fmap, Forall_forall. intros r Hr.
      by apply list_elem_of_In, filter_In in Hr as [_ Hr].
  - by rewrite length_fmap.
  - apply Forall2_fmap_r, Forall_Forall2_diag, Forall_forall.
    intros v _. split; [done|]. eexists. split; [done|].
    apply sentRows_format.
Qed.

End Payload.

(** * The route table *)

(** X16.  No route shows the products or orders screen unless the session
    check is over and the admin is authenticated.  Once the check is over,
    opening any location ends, after the application's own navigations, on
    a stable screen: for a visitor who is not authenticated that is the
    login form, with [/login] in place of a protected or unknown location
    in the history; for an authenticated admin it is the products or the
    orders screen, never the login form. *)
Theorem routing_guards_every_location (path : string) (r : Routing.route)
    (history : list string) (a : authState) :
  let final := Routing.visit path r history a in
  (Routing.render r a = Routing.ProductsScreen
   ∨ Routing.render r a = Routing.OrdersScreen →
   loading a = false ∧ isAuthenticated a = true)
  ∧ (loading a = false → Routing.next final.1 a = None)
  ∧ (loading a = false → isAuthenticated a = false →
     Routing.render final.1 a = Routing.LoginScreen
     ∧ final.2 = match r with
                 | Routing.RouteLogin => path
                 | _ => "/login"
                 end :: history)
  ∧ (loading a = false → isAuthenticated a = true →
     Routing.render final.1 a = Routing.ProductsScreen
     ∨ Routing.render final.1 a = Routing.OrdersScreen)
  ∧ (loading a = true → r ≠ Routing.RouteLogin → r ≠ Routing.RouteCatchAll →
     Routing.render r a = Routing.SpinnerScreen ∧ final = (r, path :: history)).
Proof.
  intros final. subst final. unfold Routing.visit.
  destruct (loading a) eqn:Hl, (isAuthenticated a) eqn:Hauth, r;
    repeat (progress (unfold Routing.next, Routing.render, ProtectedRoute;
                      cbn [Routing.settleAt]; rewrite ?Hl, ?Hauth; simpl));
    repeat split; try done; try (by intros [?|?]); try (by left);
    try (by right);
    try (match goal with H : _ ∨ _ |- _ => by destruct H end);
    intros; congruence.
Qed.

(** * Image locations and the order modal *)

Lemma prefix_append (p a s : string) :
  String.prefix p a = true → String.prefix p (a +:+ s) = true.
Proof.
  revert a. induction p as [|c p IH]; intros a.
  - intros _. destruct a; [by destruct s|done].
  - destruct a as [|c' a]; simpl; [done|].
    destruct (Ascii.ascii_dec c c'); [apply IH|done].
Qed.

(** X17.  [getImageUrl] gives the placeholder for a missing image, leaves a
    location starting with [http] as it is and puts the base in front of
    any other; it never gives an empty location; it throws, a [TypeError],
    on every truthy value that is not a string and on nothing else; and
    with a base that starts with [http], applying it to its own result
    changes nothing. *)
Theorem getImageUrl_contract (API_BASE : string) (imagePath : jsval) :
  (truthy imagePath = false →
   Images.getImageUrl API_BASE imagePath = Ok Images.placeholder)
  ∧ (∀ path, imagePath = JStr path → String.prefix "http" path = true →
             Images.getImageUrl API_BASE imagePath = Ok path)
  ∧ (∀ path, imagePath = JStr path → path ≠ "" →
             String.prefix "http" path = false →
             Images.getImageUrl API_BASE imagePath = Ok (API_BASE +:+ path))
  ∧ (∀ location, Images.getImageUrl API_BASE imagePath = Ok location →
                 location ≠ "")
  ∧ (truthy imagePath = true → isString imagePath = false →
     Images.getImageUrl API_BASE imagePath = Throw TypeError)
  ∧ (∀ e, Images.getImageUrl API_BASE imagePath = Throw e →
          e = TypeError ∧ truthy imagePath = true ∧ isString imagePath = false)
  ∧ (String.prefix "http" API_BASE = true →
     ∀ location, Images.getImageUrl API_BASE imagePath = Ok location →
                 Images.getImageUrl API_BASE (JStr location) = Ok location).
Proof.
  unfold Images.getImageUrl. split; [by intros ->|].
  split.
  { intros path -> Hp. simpl. destruct path; [done|]. simpl in *.
    by rewrite Hp. }
  split.
  { intros path -> Hne Hp. simpl. destruct path; [done|]. simpl in *.
    by rewrite Hp. }
  split.
  { intros location. destruct (truthy imagePath) eqn:Ht; simpl.
    - destruct imagePath as [| | | |path| |]; try done.
      destruct path as [|c path]; [done|].
      destruct (String.prefix "http" (String c path)); intros [= <-]; [done|].
      by destruct API_BASE.
    - by intros [= <-]. }
  split.
  { intros Ht Hs. rewrite Ht. simpl. by destruct imagePath. }
  split.
  { intros e. destruct (truthy imagePath) eqn:Ht; simpl; [|done].
    destruct imagePath as [| | | |path| |]; try done;
      try (by intros [= <-]).
    by destruct (String.prefix "http" path). }
  intros Hbase location.
  destruct (truthy imagePath) eqn:Ht; simpl.
  - destruct imagePath as [| | | |path| |]; try done.
    destruct path as [|c path]; [done|].
    destruct (String.prefix "http" (String c path)) eqn:Hp; intros [= <-].
    + simpl. simpl in Hp. by rewrite Hp.
    + assert (Hpre : String.prefix "http" (API_BASE +:+ String c path) = true)
        by by apply prefix_append.
      destruct (API_BASE +:+ String c path) as [|c' s] eqn:Hs.
      * by destruct API_BASE.
      * simpl. simpl in Hpre. by rewrite Hpre.
  - by intros [= <-].
Qed.

Section OrderModal.

Variable ToString : jsval → string.


End OrderModal.

(** * The inventory rows *)

Section InventoryRows.

Variable ToString : jsval → string.

(** X19.  [toggleInventory] on the expanded product collapses it and drops
    the details without a request.  On any other product it expands that
    product and asks for its details: a fulfilled request sets them; after a
    rejected one the details set before stay, so the new row shows them
    whenever they are truthy, although they belong to the product expanded
    before.  A second call on the same product collapses it again, whatever
    the server answered. *)
Theorem toggleInventory_contract
    (server : requestConfig → option httpResponse) (productId : node)
    (st : Inventory.expansion) (w : world) :
  let out := Inventory.toggleInventory ToString server productId st w in
  let reply :=
    settle (server (requestInterceptor w
              (Resources.requestOf ToString
                 (Resources.ProductsGetById (val productId))))) in
  (Inventory.strictEquals (Inventory.expandedProduct st) productId = true →
   out = (w, Inventory.collapsed))
  ∧ (Inventory.strictEquals (Inventory.expandedProduct st) productId = false →
     Inventory.expandedProduct out.2 = productId
     ∧ (∀ response, reply = Ok response →
          out.1 = w ∧ Inventory.productDetails out.2 = data response)
     ∧ (∀ error, reply = Throw error →
          out.1 = onRejected error w
          ∧ Inventory.productDetails out.2 = Inventory.productDetails st
          ∧ Inventory.rowShown productId out.2
            = truthy (Inventory.productDetails st))
     ∧ (∀ server',
          (Inventory.toggleInventory ToString server' productId out.2 out.1).2
          = Inventory.collapsed)).
Proof.
  intros out reply. subst out.
  unfold Inventory.toggleInventory, Inventory.fetchProductDetails, adminAxios.
  fold reply.
  destruct (Inventory.strictEquals (Inventory.expandedProduct st) productId)
    eqn:Hsame.
  - split; [done|discriminate].
  - split; [discriminate|]. intros _.
    assert (Hrefl : Inventory.strictEquals productId productId = true)
      by apply sameValueZero_refl.
    destruct reply as [response|error]; cbn [responseInterceptor];
      cbn [fst snd Inventory.expandedProduct Inventory.productDetails].
    + split; [done|]. split; [by intros ? [= <-]|].
      split; [discriminate|]. intros server'. by rewrite Hrefl.
    + split; [done|]. split; [discriminate|]. split.
      * intros ? [= <-]. unfold Inventory.rowShown.
        cbn [Inventory.expandedProduct Inventory.productDetails].
        by rewrite Hrefl.
      * intros server'. by rewrite Hrefl.
Qed.

End InventoryRows.

(** * The delete confirmation *)

Section DeleteConfirmation.

Variable ToString : jsval → string.


End DeleteConfirmation.

(** * The order table *)

(** X21.  [fetchOrders] always ends with the loading flag down and never
    leaves the list falsy once it is truthy.  When the request is
    fulfilled with a body, the list becomes [data.orders], or the empty
    array when that is falsy, and the world and an error shown earlier stay
    as they were.  When the request is fulfilled without a body, or
    rejected, the error becomes ['Failed to load orders'] and the list
    keeps its content; a rejection also goes through the 401 handler. *)
Theorem fetchOrders_outcome (server : requestConfig → option httpResponse)
    (w : world) (st : OrderTable.orderList) :
  let out := OrderTable.fetchOrders server w st in
  let reply :=
    settle (server (requestInterceptor w
              (RequestConfig "get" "/admin/orders" ∅ JUndefined))) in
  OrderTable.listLoading out.2 = false
  ∧ (truthy (OrderTable.orders st) = true →
     truthy (OrderTable.orders out.2) = true)
  ∧ (∀ response, reply = Ok response →
       data response ≠ JNull → data response ≠ JUndefined →
       let found := getOpt (data response) "orders" in
       OrderTable.orders out.2 = (if truthy found then found else JArr [])
       ∧ OrderTable.listError out.2 = OrderTable.listError st
       ∧ out.1 = w)
  ∧ (∀ response, reply = Ok response →
       data response = JNull ∨ data response = JUndefined →
       OrderTable.listError out.2 = "Failed to load orders"
       ∧ OrderTable.orders out.2 = OrderTable.orders st)
  ∧ (∀ error, reply = Throw error →
       out.1 = onRejected error w
       ∧ OrderTable.listError out.2 = "Failed to load orders"
       ∧ OrderTable.orders out.2 = OrderTable.orders st).
Proof.
  intros out reply. subst out. unfold OrderTable.fetchOrders, adminAxios.
  fold reply.
  destruct reply as [response|error]; cbn [responseInterceptor].
  - rewrite bind_Ok.
    destruct (getProp (data response) "orders") as [found|e] eqn:Hget;
      cbn [fst snd OrderTable.listLoading OrderTable.orders
           OrderTable.listError].
    + assert (Hbody : data response ≠ JNull ∧ data response ≠ JUndefined
                      ∧ found = getOpt (data response) "orders").
      { unfold getProp in Hget.
        destruct (data response); try discriminate Hget;
          injection Hget as <-; by repeat split. }
      destruct Hbody as (Hn & Hu & ->).
      split; [done|]. split; [intros _; by apply orElse_truthy|].
      split; [by intros ? [= <-] _ _|].
      split; [|discriminate]. intros ? [= <-] [H|H]; congruence.
    + assert (Hbody : data response = JNull ∨ data response = JUndefined).
      { unfold getProp in Hget.
        destruct (data response); try discriminate Hget;
          first [by left | by right]. }
      split; [done|]. split; [done|].
      split; [intros ? [= <-] Hn Hu; by destruct Hbody|].
      split; [|discriminate]. done.
  - change (mbind ?f (Throw error)) with (@Throw jsval error).
    cbn [fst snd OrderTable.listLoading OrderTable.orders OrderTable.listError].
    split; [done|]. split; [done|]. split; [discriminate|].
    split; [discriminate|]. by intros ? [= <-].
Qed.

Lemma length_list_ascii_of_string (s : string) :
  length (list_ascii_of_string s) = String.length s.
Proof. induction s as [|c s IH]; [done|]. simpl. by rewrite IH. Qed.

Lemma substring_front (s : string) :
  OrderTable.substring s 0 4 = string_of_list_ascii (take 4 (list_ascii_of_string s)).
Proof.
  unfold OrderTable.substring.
  set (len := Z.of_nat (String.length s)).
  assert (0 ≤ len)%Z by lia.
  replace (Z.min (Z.max 0 (Z.min 0 len)) (Z.max 0 (Z.min 4 len))) with 0%Z
    by lia.
  replace (Z.max (Z.max 0 (Z.min 0 len)) (Z.max 0 (Z.min 4 len)))
    with (Z.min 4 len) by lia.
  rewrite Z.sub_0_r. change (Z.to_nat 0) with 0. rewrite drop_0. f_equal.
  destruct (decide (4 ≤ len)%Z).
  - by replace (Z.to_nat (Z.min 4 len)) with 4 by lia.
  - rewrite !take_ge; [done| |]; rewrite length_list_ascii_of_string; lia.
Qed.

Lemma substring_back (s : string) :
  OrderTable.substring s (Z.of_nat (String.length s) - 3)
                       (Z.of_nat (String.length s))
  = string_of_list_ascii
      (drop (String.length s - 3) (list_ascii_of_string s)).
Proof.
  unfold OrderTable.substring.
  set (len := Z.of_nat (String.length s)).
  assert (0 ≤ len)%Z by lia.
  replace (Z.min (Z.max 0 (Z.min (len - 3) len)) (Z.max 0 (Z.min len len)))
    with (Z.max 0 (len - 3)) by lia.
  replace (Z.max (Z.max 0 (Z.min (len - 3) len)) (Z.max 0 (Z.min len len)))
    with len by lia.
  replace (Z.to_nat (Z.max 0 (len - 3))) with (String.length s - 3) by lia.
  f_equal. apply take_ge. rewrite length_drop, length_list_ascii_of_string. lia.
Qed.

(** X22.  [truncateId] shows ['-'] for a missing id and throws on a truthy
    id that is not a string, a number for one.  Of a string it shows the
    first four and the last three code units around an ellipsis: that hides
    something only from eight units on; with seven the whole id is shown,
    and a shorter id is shown with units repeated, so the label holds more
    units than the id. *)
Theorem truncateId_contract (id : jsval) :
  (truthy id = false → OrderTable.truncateId id = Ok "-")
  ∧ (truthy id = true → isString id = false →
     OrderTable.truncateId id = Throw TypeError)
  ∧ (∀ s, id = JStr s → s ≠ "" →
       let cs := list_ascii_of_string s in
       let front := take 4 cs in
       let back := drop (length cs - 3) cs in
       OrderTable.truncateId id
       = Ok (string_of_list_ascii front +:+ OrderTable.ellipsis
             +:+ string_of_list_ascii back)
       ∧ front `prefix_of` cs ∧ back `suffix_of` cs
       ∧ (length cs = 7%nat → front ++ back = cs)
       ∧ ((length cs < 7)%nat ↔ (length cs < length front + length back)%nat)
       ∧ ((7 ≤ length cs)%nat → length front = 4%nat ∧ length back = 3%nat)).
Proof.
  split; [|split].
  - intros H. unfold OrderTable.truncateId. by rewrite H.
  - intros H Hs. unfold OrderTable.truncateId. rewrite H.
    by destruct id.
  - intros s -> Hne cs front back.
    assert (Htruthy : truthy (JStr s) = true).
    { simpl. destruct s; [done|reflexivity]. }
    unfold OrderTable.truncateId. rewrite Htruthy.
    rewrite substring_front, substring_back.
    rewrite <- length_list_ascii_of_string. fold cs front back.
    split; [done|].
    split; [apply prefix_take|]. split; [apply suffix_drop|].
    assert (Hf : length front = length cs `min` 4).
    { unfold front. rewrite length_take. lia. }
    assert (Hb : length back = length cs - (length cs - 3)).
    { unfold back. by rewrite length_drop. }
    assert (Hpos : (0 < length cs)%nat).
    { unfold cs. destruct s; [done|simpl; lia]. }
    split; [|split; [lia|lia]].
    intros H7. unfold front, back. rewrite H7.
    change (7 - 3) with 4. apply take_drop.
Qed.

(** * Instances of the further properties *)

(** An administrator's login on an empty store. *)
Lemma login_success_iff_witness :
  let user := JObj [("id", JNum 1); ("email", JStr "a@x.com");
                    ("role", JStr "ADMIN")] in
  let response := HttpResponse 200 (JObj [("token", JStr "t1"); ("user", user)]) in
  let server (_ : requestConfig) := Some response in
  let w := World ∅ "/login" [] in
  let out :=
    login Codec.stringify Codec.toString server "a@x.com" "pw" w initialState in
  out.1.1 = Success
  ∧ journal out.1.2
    = [SetItem TOKEN_KEY "t1"; SetItem USER_KEY (Codec.stringify user)]
  ∧ admin out.2 = user.
Proof.
  intros user response server w out.
  destruct (login_success_iff Codec.stringify Codec.toString server
              "a@x.com" "pw" w initialState) as [[_ Hok] Hfacts].
  destruct (Hfacts response eq_refl eq_refl) as (Hj & _ & _ & _ & Ha & _).
  split; [apply Hok; by exists response|]. split; [exact Hj|exact Ha].
Defined.

(** The same login followed by a page load, and a login whose token is the
    empty string. *)
Lemma login_survives_reload_witness :
  let user := JObj [("id", JNum 1); ("email", JStr "a@x.com");
                    ("role", JStr "ADMIN")] in
  let reply (token : string) :=
    HttpResponse 200 (JObj [("token", JStr token); ("user", user)]) in
  let w := World ∅ "/login" [] in
  let out (token : string) :=
    login Codec.stringify Codec.toString (λ _, Some (reply token))
          "a@x.com" "pw" w initialState in
  mount Codec.parse (out "t1").1.2 = ((out "t1").1.2, AuthState user false)
  ∧ isAuthenticated (out "").2 = true
  ∧ mount Codec.parse (out "").1.2 = ((out "").1.2, AuthState JNull false).
Proof.
  intros user reply w out.
  destruct (login_survives_reload Codec.parse Codec.stringify Codec.toString
              (λ _, Some (reply "t1")) "a@x.com" "pw" w initialState
              (reply "t1") eq_refl eq_refl) as [Hkept _].
  destruct (login_survives_reload Codec.parse Codec.stringify Codec.toString
              (λ _, Some (reply "")) "a@x.com" "pw" w initialState
              (reply "") eq_refl eq_refl) as [_ Hlost].
  split.
  - apply Hkept; [discriminate|discriminate|reflexivity].
  - exact (Hlost eq_refl).
Defined.

(** Logging out of a loaded application with a preference stored beside
    the session. *)
Lemma logout_ends_session_witness :
  let w := World {[TOKEN_KEY := "t1"; USER_KEY := "{}"; "theme" := "dark"]}
                 "/orders" [] in
  let a := AuthState (JObj []) false in
  getItem "theme" (logout w a).1 = Some "dark"
  ∧ ProtectedRoute (logout w a).2 = Navigate "/login" true.
Proof.
  intros w a.
  destruct (logout_ends_session Codec.parse w a)
    as (_ & _ & Hother & _ & _ & Hguard & _).
  split.
  - rewrite (Hother "theme"); [reflexivity|discriminate|discriminate].
  - exact (Hguard eq_refl).
Defined.

(** Login and logout on a store that holds a preference only. *)
Lemma login_then_logout_restores_store_witness :
  let user := JObj [("id", JNum 1); ("role", JStr "ADMIN")] in
  let server (_ : requestConfig) :=
    Some (HttpResponse 200 (JObj [("token", JStr "t1"); ("user", user)])) in
  let w := World {["theme" := "dark"]} "/login" [] in
  let logged :=
    login Codec.stringify Codec.toString server "a@x.com" "pw" w initialState in
  let out := handleLogout logged.1.2 logged.2 ["/products"; "/login"] in
  getItem TOKEN_KEY logged.1.2 = Some "t1"
  ∧ storage out.1.1 = storage w
  ∧ out.2 = ["/login"; "/products"; "/login"].
Proof.
  intros user server w logged out.
  destruct (login_then_logout_restores_store Codec.stringify Codec.toString
              server "a@x.com" "pw" w initialState ["/products"; "/login"]
              eq_refl eq_refl eq_refl) as (Hstore & _ & Hhistory).
  split; [reflexivity|]. split; [exact Hstore|exact Hhistory].
Defined.

(** A request answered 401 while a session is stored. *)
Lemma unauthorized_ends_session_witness :
  let w := World {[TOKEN_KEY := "t1"; USER_KEY := "{}"]} "/orders" [] in
  let response := HttpResponse 401 (JObj [("error", JStr "Token expired")]) in
  let config := RequestConfig "get" "/admin/orders" ∅ JUndefined in
  let out := adminAxios (λ _, Some response) config w in
  getItem TOKEN_KEY w = Some "t1"
  ∧ href out.2 = "/login"
  ∧ getItem TOKEN_KEY out.2 = None
  ∧ mount Codec.parse out.2 = (out.2, AuthState JNull false).
Proof.
  intros w response config out.
  destruct (unauthorized_ends_session Codec.parse (λ _, Some response)
              config w response eq_refl eq_refl)
    as (_ & Hhref & Htoken & _ & _ & Hmount).
  split; [reflexivity|]. split; [exact Hhref|].
  split; [exact Htoken|exact Hmount].
Defined.

(** A page load over a stored administrator, and over a record that reads
    [null]. *)
Lemma mount_authenticated_iff_witness :
  let stored (record : string) :=
    World {[TOKEN_KEY := "t1"; USER_KEY := record]} "/products" [] in
  let good := "{" +:+ Codec.quoted "role" +:+ ":" +:+ Codec.quoted "ADMIN" +:+ "}" in
  isAuthenticated (mount Codec.parse (stored good)).2 = true
  ∧ (mount Codec.parse (stored "null")).1 = stored "null"
  ∧ phaseOf (mount Codec.parse (stored "null")).2 = Unauthenticated.
Proof.
  intros stored good.
  destruct (mount_authenticated_iff Codec.parse (stored good))
    as (_ & [_ Hyes] & _).
  destruct (mount_authenticated_iff Codec.parse (stored "null"))
    as (_ & _ & Hnull).
  split.
  - apply Hyes. exists "t1", good, (JObj [("role", JStr "ADMIN")]).
    repeat split; discriminate.
  - apply (Hnull "t1" "null" JNull); (reflexivity || discriminate).
Defined.


(** Two rejections, a 401 and a network error, in both arrival orders. *)
Lemma onRejectedAll_order_irrelevant_witness :
  let w := World {[TOKEN_KEY := "t1"; USER_KEY := "{}"]} "/products" [] in
  let expired := AxiosError (Some (HttpResponse 401 JNull)) in
  let offline := AxiosError None in
  onRejectedAll [expired; offline] w = onRejectedAll [offline; expired] w.
Proof.
  intros w expired offline.
  apply (onRejectedAll_order_irrelevant [expired; offline] [offline; expired] w).
  apply perm_swap.
Defined.


(** The catalogue loaded with an expired token. *)
Lemma fetchData_expired_session_witness :
  let w := World {[TOKEN_KEY := "t1"; USER_KEY := "{}"]} "/products" [] in
  let server (_ : nat) (_ : requestConfig) := Some (HttpResponse 401 JNull) in
  let out := Catalog.fetchData server w Catalog.initialCatalog in
  journal out.1 = clearAndRedirect ++ clearAndRedirect ++ clearAndRedirect
  ∧ getItem TOKEN_KEY out.1 = None
  ∧ Catalog.stError out.2 = "Failed to load data"
  ∧ Catalog.stProducts out.2 = JArr [].
Proof.
  intros w server out.
  destruct (fetchData_expired_session server w Catalog.initialCatalog)
    as (Hj & _ & Htoken & _ & _ & Herror & _ & Hproducts & _).
  { intros i _. by exists (HttpResponse 401 JNull). }
  split; [exact Hj|]. split; [exact Htoken|]. split; [exact Herror|].
  exact Hproducts.
Defined.

(** Removing the only variant and the only size row, and a handler called
    with an index the form does not render. *)
Lemma variant_form_never_empty_witness :
  let actions := [Variants.RemoveVariant 0; Variants.AddSize 0;
                  Variants.RemoveSize 0 1; Variants.RemoveSize 0 0;
                  Variants.SelectCustom 0] in
  (∃ vs, Variants.run actions Variants.initial = Ok vs ∧ wellFormedVariants vs)
  ∧ ¬ Variants.inRange (Variants.UpdateColor 5 (JStr "red")) Variants.initial.
Proof.
  intros actions.
  destruct variant_form_never_empty as (Hinit & Hrun & _ & Hthrow).
  split.
  - eexists. split; [reflexivity|].
    by apply (Hrun actions Variants.initial _ Hinit).
  - by destruct (Hthrow (Variants.UpdateColor 5 (JStr "red")) Variants.initial
                   TypeError eq_refl).
Defined.

(** A form with one filled variant, one without a colour and one without a
    size.  [parseInt || 0] does not tell [NaN] from [0], so the instance
    reads what is no numeral as [0]. *)
Lemma edit_payload_has_no_blank_witness :
  let parseInt (v : jsval) :=
    match v with
    | JNum n => JNum n
    | JStr s => match Codec.parse s with Some (JNum n) => JNum n | _ => JNum 0 end
    | _ => JNum 0
    end in
  let row (value quantity : string) :=
    Variants.SizeRow (JStr value) (JStr quantity) in
  let red := Variants.Variant (JStr "red") [row "7" "3"; row "" "9"] (JBool false) in
  let variants :=
    [red;
     Variants.Variant (JStr "") [row "8" "1"] (JBool false);
     Variants.Variant (JStr "blue") [row "" ""] (JBool true)] in
  let sent :=
    [JObj [("color", JStr "red");
           ("sizes", JArr [JObj [("value", JStr "7"); ("quantity", JNum 3)]])]] in
  Variants.formatForEdit parseInt variants = Some sent
  ∧ sent ≠ []
  ∧ (length sent ≤ length variants)%nat
  ∧ Forall2 (λ v entry,
               sentVariant parseInt (Variants.vColor v)
                 (List.filter (λ s, truthy (Variants.rowValue s))
                              (Variants.vSizes v))
                 entry)
            [red] sent.
Proof.
  intros parseInt row red variants sent.
  destruct (edit_payload_has_no_blank parseInt variants) as (_ & Hsent & _).
  assert (Hpayload : Variants.formatForEdit parseInt variants = Some sent)
    by reflexivity.
  destruct (Hsent sent Hpayload) as (Hne & Hlen & _ & Horder).
  split; [exact Hpayload|]. split; [exact Hne|]. split; [exact Hlen|].
  exact Horder.
Defined.

(** Opening the orders page without a session, and the login page with
    one. *)
Lemma routing_guards_every_location_witness :
  let visitor := AuthState JNull false in
  let administrator := AuthState (JObj [("role", JStr "ADMIN")]) false in
  Routing.visit "/orders" Routing.RouteOrders ["/login"] visitor
  = (Routing.RouteLogin, ["/login"; "/login"])
  ∧ (Routing.render
       (Routing.visit "/login" Routing.RouteLogin [] administrator).1
       administrator = Routing.ProductsScreen
     ∨ Routing.render
         (Routing.visit "/login" Routing.RouteLogin [] administrator).1
         administrator = Routing.OrdersScreen).
Proof.
  intros visitor administrator.
  destruct (routing_guards_every_location "/orders" Routing.RouteOrders
              ["/login"] visitor) as (_ & _ & Hvisitor & _).
  destruct (routing_guards_every_location "/login" Routing.RouteLogin
              [] administrator) as (_ & _ & _ & Hadmin & _).
  split.
  - destruct (Hvisitor eq_refl eq_refl) as [_ Hhistory].
    apply injective_projections; [reflexivity|exact Hhistory].
  - exact (Hadmin eq_refl eq_refl).
Defined.

(** A relative location under the default base, and an image given as a
    number. *)
Lemma getImageUrl_contract_witness :
  let API_BASE := "http://localhost:4000" in
  let location := "http://localhost:4000/uploads/a.png" in
  Images.getImageUrl API_BASE (JStr "/uploads/a.png") = Ok location
  ∧ Images.getImageUrl API_BASE (JStr location) = Ok location
  ∧ Images.getImageUrl API_BASE (JNum 3) = Throw TypeError.
Proof.
  intros API_BASE location.
  destruct (getImageUrl_contract API_BASE (JStr "/uploads/a.png"))
    as (_ & _ & Hrelative & _ & _ & _ & Hagain).
  destruct (getImageUrl_contract API_BASE (JNum 3))
    as (_ & _ & _ & _ & Hthrow & _).
  assert (H : Images.getImageUrl API_BASE (JStr "/uploads/a.png") = Ok location).
  { apply (Hrelative "/uploads/a.png"); [reflexivity|discriminate|reflexivity]. }
  split; [exact H|]. split; [exact (Hagain eq_refl location H)|].
  exact (Hthrow eq_refl eq_refl).
Defined.


(** The inventory of one product open, then another product toggled while
    the server cannot be reached. *)
Lemma toggleInventory_contract_witness :
  let first := Node 0 (JNum 1) in
  let second := Node 1 (JNum 2) in
  let details := JObj [("id", JNum 1); ("variants", JArr [])] in
  let w := World {[TOKEN_KEY := "t1"; USER_KEY := "{}"]} "/products" [] in
  let out :=
    Inventory.toggleInventory Codec.toString (λ _, None) second
      (Inventory.Expansion first details) w in
  Inventory.expandedProduct out.2 = second
  ∧ Inventory.productDetails out.2 = details
  ∧ Inventory.rowShown second out.2 = true.
Proof.
  intros first second details w out.
  destruct (toggleInventory_contract Codec.toString (λ _, None) second
              (Inventory.Expansion first details) w) as [_ Hother].
  destruct (Hother eq_refl) as (Hexpanded & _ & Hrejected & _).
  destruct (Hrejected (AxiosError None) eq_refl) as (_ & Hkept & Hshown).
  split; [exact Hexpanded|]. split; [exact Hkept|exact Hshown].
Defined.


(** An order list answered with one order, and one answered 200 without a
    body. *)
Lemma fetchOrders_outcome_witness :
  let w := World {[TOKEN_KEY := "t1"; USER_KEY := "{}"]} "/orders" [] in
  let order := JObj [("order_id", JStr "a1b2c3d4")] in
  let listed :=
    OrderTable.fetchOrders
      (λ _, Some (HttpResponse 200 (JObj [("orders", JArr [order])]))) w
      OrderTable.initialOrders in
  let out :=
    OrderTable.fetchOrders (λ _, Some (HttpResponse 200 JNull)) w
      OrderTable.initialOrders in
  OrderTable.orders listed.2 = JArr [order]
  ∧ OrderTable.listError listed.2 = ""
  ∧ OrderTable.listError out.2 = "Failed to load orders"
  ∧ OrderTable.orders out.2 = JArr [].
Proof.
  intros w order listed out.
  destruct (fetchOrders_outcome
              (λ _, Some (HttpResponse 200 (JObj [("orders", JArr [order])])))
              w OrderTable.initialOrders) as (_ & _ & Hfound & _).
  destruct (fetchOrders_outcome (λ _, Some (HttpResponse 200 JNull)) w
              OrderTable.initialOrders) as (_ & _ & _ & Hbody & _).
  destruct (Hfound _ eq_refl) as (Horders & Herror & _);
    [discriminate|discriminate|].
  split; [exact Horders|]. split; [exact Herror|].
  apply (Hbody (HttpResponse 200 JNull) eq_refl). by left.
Defined.

(** A numeric id, and an id of three code units. *)
Lemma truncateId_contract_witness :
  OrderTable.truncateId (JNum 12) = Throw TypeError
  ∧ OrderTable.truncateId (JStr "abc")
    = Ok ("abc" +:+ OrderTable.ellipsis +:+ "abc").
Proof.
  split.
  - destruct (truncateId_contract (JNum 12)) as (_ & Hthrow & _).
    exact (Hthrow eq_refl eq_refl).
  - destruct (truncateId_contract (JStr "abc")) as (_ & _ & Hstring).
    destruct (Hstring "abc" eq_refl) as [Hlabel _]; [discriminate|].
    exact Hlabel.
Defined.

(** A rejection whose [error] is an object, and one whose [error] is a
    string. *)
Lemma handleSubmit_outcome_witness :
  let w := World ∅ "/login" [] in
  let refused (error : jsval) (_ : requestConfig) :=
    Some (HttpResponse 400 (JObj [("error", error)])) in
  let out (error : jsval) :=
    handleSubmit Codec.stringify Codec.toString (refused error)
                 "a@x.com" "pw" w initialState ["/login"] in
  loginBanner Codec.toString (out (JObj [("code", JNum 7)])).1.2 = RenderError
  ∧ loginBanner Codec.toString (out (JStr "Invalid credentials")).1.2
    = Banner "Invalid credentials".
Proof.
  intros w refused out.
  destruct (handleSubmit_outcome Codec.stringify Codec.toString
              (refused (JObj [("code", JNum 7)])) "a@x.com" "pw" w
              initialState ["/login"]) as (_ & _ & _ & Hobject).
  destruct (handleSubmit_outcome Codec.stringify Codec.toString
              (refused (JStr "Invalid credentials")) "a@x.com" "pw" w
              initialState ["/login"]) as (_ & _ & _ & Hstring).
  split.
  - destruct (Hobject _ eq_refl) as [H _]. exact (H _ eq_refl).
  - destruct (Hstring _ eq_refl) as [_ H]. apply (H _ eq_refl). discriminate.
Defined.

(** A catalogue of two products sharing a colour, all three requests
    fulfilled. *)
Lemma fetchData_outcome_witness :
  let w := World {[TOKEN_KEY := "t1"; USER_KEY := "{}"]} "/products" [] in
  let product (color size : string) :=
    JObj [("colors", JArr [JStr color]); ("sizes", JArr [JStr size])] in
  let response :=
    HttpResponse 200
      (JObj [("products", JArr [product "red" "7"; product "red" "8"])]) in
  let out :=
    Catalog.fetchData (λ _ _, Some response) w Catalog.initialCatalog in
  Catalog.stColors out.2 = JArr [idValue (JStr "red")]
  ∧ Catalog.stSizes out.2 = JArr [idValue (JStr "7"); idValue (JStr "8")]
  ∧ Catalog.stError out.2 = ""
  ∧ out.1 = w.
Proof.
  intros w product response out.
  destruct (fetchData_outcome (λ _ _, Some response) w Catalog.initialCatalog)
    as (_ & Hall & _).
  destruct (Hall _ _ _ eq_refl eq_refl eq_refl)
    as (_ & Hcolors & Hsizes & _ & Herror & Hworld).
  split; [exact Hcolors|]. split; [exact Hsizes|].
  split; [exact Herror|exact Hworld].
Defined.
